(** * news.py: the feed-aggregation pipeline

    A shallow embedding of [news.py] (fetch, parse, filter, rank, truncate)
    and the properties of it that the specification states.

    Conventions of the embedding.
    - A Python [str] is a list of characters.  Characters are the code
      points below 256; on that range the tables below ([is_space],
      [is_word], [lower_char]) are the ones of CPython's [str.isspace],
      of [\w] in [re] and of [str.lower].  Text with code points beyond
      U+00FF is outside the model.
    - A Python value that is [None] or a [str] is an [option text].
    - The interpreter's libraries that the program calls but does not
      define (urllib, ElementTree, html, email.utils, random) are the
      fields of an environment record [Env]; what is assumed of them is
      stated as an explicit hypothesis where a theorem needs it.
    - Exceptions are values of [exn]; the loops of [get_news] mutate the
      list [all_items], which is threaded as state. *)

From Stdlib Require Import Ascii String.
From Stdlib Require Import List ZArith Lia Bool Permutation Sorted.
From Stdlib Require Import Init.Byte.
From Equations Require Import Equations.
Import ListNotations.

Set Warnings "-register-all".
Local Open Scope Z_scope.

(* ===================================================================== *)
(** ** Text *)
(* ===================================================================== *)

Definition text := list ascii.

(** A string literal as a [text]. *)
Definition str (s : string) : text := list_ascii_of_string s.

Definition code (c : ascii) : Z := Z.of_N (N_of_ascii c).

Definition in_range (lo hi : Z) (c : ascii) : bool :=
  (lo <=? code c) && (code c <=? hi).

(** [str.isspace] on one character. *)
Definition is_space (c : ascii) : bool :=
  in_range 9 13 c || in_range 28 32 c || (code c =? 133) || (code c =? 160).

(** The class [\w] of [re] on a [str] pattern: alphanumerics and [_]. *)
Definition is_word (c : ascii) : bool :=
  in_range 48 57 c || in_range 65 90 c || (code c =? 95) || in_range 97 122 c
  || (code c =? 170) || in_range 178 179 c || (code c =? 181)
  || in_range 185 186 c || in_range 188 190 c
  || in_range 192 214 c || in_range 216 246 c || in_range 248 255 c.

(** [str.lower] on one character. *)
Definition lower_char (c : ascii) : ascii :=
  if in_range 65 90 c || in_range 192 214 c || in_range 216 222 c
  then ascii_of_N (N_of_ascii c + 32)
  else c.

(** [s.lower()] *)
Definition lower (s : text) : text := map lower_char s.

Fixpoint lstrip (s : text) : text :=
  match s with
  | c :: r => if is_space c then lstrip r else s
  | [] => []
  end.

Definition rstrip (s : text) : text := rev (lstrip (rev s)).

(** [s.strip()] *)
Definition strip (s : text) : text := rstrip (lstrip s).

(** Truth value of a [None]-or-[str] value: [None] and [""] are false. *)
Definition truthy {A : Type} (v : option (list A)) : bool :=
  match v with
  | Some (_ :: _) => true
  | _ => false
  end.

(* ===================================================================== *)
(** ** Exceptions *)
(* ===================================================================== *)

Inductive exn : Type :=
| AttributeError
| ParseError
| ValueError
| URLError.

Inductive result (A : Type) : Type :=
| Ok (a : A)
| Raise (e : exn).
Arguments Ok {A} a.
Arguments Raise {A} e.

(** [v.strip()] on a [None]-or-[str] value: [None] has no such attribute. *)
Definition strip_method (v : option text) : result text :=
  match v with
  | Some s => Ok (strip s)
  | None => Raise AttributeError
  end.

(* ===================================================================== *)
(** ** The regular expressions *)
(* ===================================================================== *)

Definition newline : ascii := ascii_of_N 10.

Definition ch (s : string) : ascii :=
  match s with
  | String c _ => c
  | EmptyString => zero
  end.

(** *** [<.*?>] *)

(** [.*?>] right after a [<]: the number of characters it consumes, the
    closing [>] included.  The lazy star stops at the first [>]; [.] does
    not match a newline, so the attempt fails there and at the end. *)
Fixpoint lazy_to_gt (r : text) : option nat :=
  match r with
  | [] => None
  | c :: r' =>
      if Ascii.eqb c (ch ">") then Some 1%nat
      else if Ascii.eqb c newline then None
      else option_map S (lazy_to_gt r')
  end.

(** Length of the match of [<.*?>] anchored at the start of [s]. *)
Definition tag_match (s : text) : option nat :=
  match s with
  | c :: r => if Ascii.eqb c (ch "<") then option_map S (lazy_to_gt r) else None
  | [] => None
  end.

(** [re.sub(cleanr, '', s)]: scan from the left; delete a match and go on
    after it, otherwise keep the character and go on one further. *)
Equations? sub_tags (s : text) : text by wf (length s) lt :=
  sub_tags [] := [];
  sub_tags (c :: r) with tag_match (c :: r) => {
    | Some n := sub_tags (skipn (pred n) r);
    | None := c :: sub_tags r }.
Proof.
  all: cbn [length]; try lia.
  rewrite length_skipn. lia.
Qed.

(** Some position of [s] starts a match of [<.*?>]. *)
Fixpoint has_tag (s : text) : bool :=
  match s with
  | [] => false
  | c :: r =>
      match tag_match (c :: r) with
      | Some _ => true
      | None => has_tag r
      end
  end.

(** *** [\b] keyword [\b] *)

Definition word_opt (c : option ascii) : bool :=
  match c with
  | Some c => is_word c
  | None => false
  end.

(** [\b] at a position: exactly one of the character before it and the
    character at it is a word character (the ends of the text count as
    non-word). *)
Definition boundary (prev next : option ascii) : bool :=
  xorb (word_opt prev) (word_opt next).

(** The literal [k] (what [re.escape(k)] matches) at the start of [s]:
    the text that follows it. *)
Fixpoint match_literal (k s : text) : option text :=
  match k, s with
  | [], _ => Some s
  | a :: k', b :: s' => if Ascii.eqb a b then match_literal k' s' else None
  | _ :: _, [] => None
  end.

(** The character before the position reached after reading [k]. *)
Definition last_char (prev : option ascii) (k : text) : option ascii :=
  fold_left (fun _ c => Some c) k prev.

(** [\b k \b] anchored at the current position, [prev] being the character
    before it. *)
Definition match_at (k : text) (prev : option ascii) (s : text) : bool :=
  boundary prev (hd_error s) &&
  match match_literal k s with
  | Some rest => boundary (last_char prev k) (hd_error rest)
  | None => false
  end.

(** [re.search] tries every start position, the end of the text included. *)
Fixpoint search_from (k : text) (prev : option ascii) (s : text) : bool :=
  match_at k prev s ||
  match s with
  | [] => false
  | c :: r => search_from k (Some c) r
  end.

(** [re.search(r'\b' + re.escape(k) + r'\b', s)] as a truth value. *)
Definition re_search_word (k s : text) : bool := search_from k None s.

(* ===================================================================== *)
(** ** Constants *)
(* ===================================================================== *)

Definition RSS_FEEDS : list text := map str [
  "https://news.ycombinator.com/rss";
  "https://feeds.arstechnica.com/arstechnica/index";
  "https://www.techradar.com/feeds/news";
  "https://feeds.bloomberg.com/markets/news.rss";
  "https://feeds.theverge.com/theverge/index.xml";
  "https://dev.to/feed";
  "https://rss.nytimes.com/services/xml/rss/nyt/Technology.xml"
]%string.

Definition KEYWORDS : list text := map str [
  "ai"; "artificial intelligence"; "machine learning"; "deep learning"; "neural";
  "algorithm"; "computer science"; "programming"; "software"; "developer";
  "coding"; "python"; "rust"; "golang"; "linux"; "kernel"; "cybersecurity";
  "hacker"; "data science"; "llm"; "gpt"; "transformer"; "compiler";
  "distributed system"; "cloud computing"; "aws"; "azure"; "google cloud"
]%string.

Definition MAX_ITEMS : Z := 4.

(** The keyword loop of [get_news]: [is_match] after the [for k in
    KEYWORDS] with its [break]. *)
Definition is_match (combined_text : text) : bool :=
  existsb (fun k => re_search_word k combined_text) KEYWORDS.

(** [f"{title_lower} {desc_lower}"] of [get_news], from the title (a
    non-empty [str]) and the description value. *)
Definition combined_text (title : text) (desc : option text) : text :=
  let title_lower := lower title in
  let desc_lower := match desc with
                    | Some (c :: r) => lower (c :: r)
                    | _ => []
                    end in
  title_lower ++ str " " ++ desc_lower.

(* ===================================================================== *)
(** ** Datetimes *)
(* ===================================================================== *)

(** A naive [datetime]. *)
Record datetime : Type := mk_datetime {
  year : Z; month : Z; day : Z;
  hour : Z; minute : Z; second : Z; microsecond : Z
}.

(** [datetime.min] *)
Definition datetime_min : datetime := mk_datetime 1 1 1 0 0 0 0.

Definition dt_tuple (d : datetime) : list Z :=
  [year d; month d; day d; hour d; minute d; second d; microsecond d].

Fixpoint lex_ltb (a b : list Z) : bool :=
  match a, b with
  | x :: a', y :: b' => (x <? y) || ((x =? y) && lex_ltb a' b')
  | [], _ :: _ => true
  | _, [] => false
  end.

(** [a < b] on naive datetimes: field by field, the year first. *)
Definition dt_ltb (a b : datetime) : bool := lex_ltb (dt_tuple a) (dt_tuple b).

Definition dt_eqb (a b : datetime) : bool :=
  negb (dt_ltb a b) && negb (dt_ltb b a).

(** What [parsedate_to_datetime] returns: wall-clock fields and, when the
    string carried a zone, its offset in seconds. *)
Record aware_datetime : Type := mk_aware {
  wall : datetime;
  tzinfo : option Z
}.

(** [d.replace(tzinfo=None)] *)
Definition replace_tzinfo_None (d : aware_datetime) : datetime := wall d.

(* ===================================================================== *)
(** ** Element trees *)
(* ===================================================================== *)

Inductive element : Type :=
| Element (tag : text) (text_ : option text) (children : list element).

Definition tag (e : element) : text := let (t, _, _) := e in t.
Definition text_ (e : element) : option text := let (_, t, _) := e in t.
Definition children (e : element) : list element := let (_, _, c) := e in c.

Definition text_eqb (a b : text) : bool :=
  if list_eq_dec ascii_dec a b then true else false.

(** [e.find(name)]: the first child with that tag, or [None]. *)
Definition find (name : text) (e : element) : option element :=
  List.find (fun c => text_eqb (tag c) name) (children e).

(** [e.findall(name)]: the children with that tag, in document order. *)
Definition findall (name : text) (e : element) : list element :=
  filter (fun c => text_eqb (tag c) name) (children e).

(** [item.find(name).text if item.find(name) is not None else ""] *)
Definition find_text (item : element) (name : text) : option text :=
  match find name item with
  | Some e => text_ e
  | None => Some []
  end.

(* ===================================================================== *)
(** ** News items and the environment *)
(* ===================================================================== *)

(** The dictionaries that [get_news] appends to [all_items]. *)
Record NewsItem : Type := mk_item {
  title : text;
  link : text;
  desc : text;
  date : datetime;
  source : text
}.

(** The library calls of [news.py].  [urlopen_read url] is
    [urlopen(url, timeout=5)] followed by [read()]; a [Raise] stands for
    any exception of the call.  [html_unescape] is taken to return a
    text: the [ValueError] that [html.unescape] raises on a numeric
    reference too long for the interpreter's integer conversion is
    outside the model. *)
Record Env : Type := mk_env {
  urlopen_read : text -> result (list byte);
  ET_fromstring : list byte -> result element;
  html_unescape : text -> text;
  parsedate_to_datetime : text -> result aware_datetime;
  random_shuffle : list NewsItem -> list NewsItem
}.

(* ===================================================================== *)
(** ** Sorting and slicing *)
(* ===================================================================== *)

Section Sort.
Context {A K : Type} (key : A -> K) (lt : K -> K -> bool).

(** The one comparison of [list.sort]: [y] has to come before [x] when
    [key y < key x]; with [reverse] the comparison is taken the other
    way round. *)
Definition comes_first (reverse : bool) (y x : A) : bool :=
  if reverse then lt (key x) (key y) else lt (key y) (key x).

(** [x] stood before every element of [l] in the input: it is put in
    front of the first element that does not have to come before it. *)
Fixpoint insert (reverse : bool) (x : A) (l : list A) : list A :=
  match l with
  | [] => [x]
  | y :: l' => if comes_first reverse y x then y :: insert reverse x l'
               else x :: l
  end.

(** [l.sort(key=key, reverse=reverse)] *)
Fixpoint list_sort (reverse : bool) (l : list A) : list A :=
  match l with
  | [] => []
  | x :: l' => insert reverse x (list_sort reverse l')
  end.

(** [a] may stand before [b] in the sorted list: [b] does not have to
    come before [a]. *)
Definition in_order (reverse : bool) (a b : A) : Prop :=
  comes_first reverse b a = false.

(** The key of [x] is [d]: neither is less than the other. *)
Definition same_key (d : K) (x : A) : bool :=
  negb (lt (key x) d) && negb (lt d (key x)).
End Sort.

(** [l[:stop]] with the index adjusted as Python does for a slice. *)
Definition slice_to {A : Type} (l : list A) (stop : Z) : list A :=
  let n := Z.of_nat (length l) in
  let stop' := if stop <? 0 then Z.max (stop + n) 0 else Z.min stop n in
  firstn (Z.to_nat stop') l.

(* ===================================================================== *)
(** ** The program *)
(* ===================================================================== *)

(** Statements of [get_news]: they read and update [all_items] and end
    normally or with an exception. *)
Definition M (A : Type) : Type := list NewsItem -> list NewsItem * result A.

Definition ret {A : Type} (a : A) : M A := fun st => (st, Ok a).

Definition raise {A : Type} (e : exn) : M A := fun st => (st, Raise e).

Definition bind {A B : Type} (m : M A) (k : A -> M B) : M B :=
  fun st =>
    match m st with
    | (st', Ok a) => k a st'
    | (st', Raise e) => (st', Raise e)
    end.

Notation "x <- m ;; k" := (bind m (fun x => k))
  (at level 61, m at next level, right associativity).

(** A call that has no effect on [all_items]. *)
Definition call {A : Type} (r : result A) : M A := fun st => (st, r).

(** [all_items.append(x)] *)
Definition append (x : NewsItem) : M unit := fun st => (st ++ [x], Ok tt).

(** [for x in l: body(x)] *)
Fixpoint for_each {A : Type} (body : A -> M unit) (l : list A) : M unit :=
  match l with
  | [] => ret tt
  | x :: l' => _ <- body x ;; for_each body l'
  end.

(** [try: m  except ET.ParseError: continue] as the last statement of a
    loop body. *)
Definition except_ParseError (m : M unit) : M unit :=
  fun st =>
    match m st with
    | (st', Raise ParseError) => (st', Ok tt)
    | r => r
    end.

Section Program.
Variable E : Env.

Definition clean_html (raw_html : option text) : text :=
  match raw_html with
  | None | Some [] => []
  | Some raw =>
      let cleantext := sub_tags raw in
      strip (html_unescape E cleantext)
  end.

Definition fetch_feed (url : text) : option (list byte) :=
  match urlopen_read E url with
  | Ok response => Some response
  | Raise _ => None
  end.

Definition parse_date (date_str : option text) : datetime :=
  match date_str with
  | None | Some [] => datetime_min
  | Some s =>
      match parsedate_to_datetime E s with
      | Ok d => replace_tzinfo_None d
      | Raise _ => datetime_min
      end
  end.

(** The description stored in a news item. *)
Definition item_desc (desc : option text) : text :=
  if truthy desc then firstn 200 (clean_html desc) ++ str "..."
  else str "No description.".

(** Body of [for item in channel.findall('item')]. *)
Definition item_body (url : text) (item : element) : M unit :=
  let title := find_text item (str "title") in
  let link := find_text item (str "link") in
  let desc := find_text item (str "description") in
  let pubDate := find_text item (str "pubDate") in
  match title with
  | None | Some [] => ret tt
  | Some title =>
      if is_match (combined_text title desc) then
        link' <- call (strip_method link) ;;
        append {| title := strip title;
                  link := link';
                  desc := item_desc desc;
                  date := parse_date pubDate;
                  source := url |}
      else ret tt
  end.

(** Body of [for url in RSS_FEEDS]. *)
Definition feed_body (url : text) : M unit :=
  match fetch_feed url with
  | None | Some [] => ret tt
  | Some data =>
      except_ParseError (
        root <- call (ET_fromstring E data) ;;
        match find (str "channel") root with
        | None => ret tt
        | Some channel =>
            for_each (item_body url) (findall (str "item") channel)
        end)
  end.

(** The ranking step: shuffle, or sort by date, newest first. *)
Definition rank (shuffle : bool) (all_items : list NewsItem) : list NewsItem :=
  if shuffle then random_shuffle E all_items
  else list_sort date dt_ltb true all_items.

(** [get_news] over a list of feeds. *)
Definition get_news_from (feeds : list text) (shuffle : bool) (limit : Z)
  : result (list NewsItem) :=
  match for_each feed_body feeds [] with
  | (all_items, Ok _) => Ok (slice_to (rank shuffle all_items) limit)
  | (_, Raise e) => Raise e
  end.

Definition get_news (shuffle : bool) (limit : Z) : result (list NewsItem) :=
  get_news_from RSS_FEEDS shuffle limit.

(** What [main] hands to the presenter: [argparse] has turned the
    [--random] flag into a boolean and the [--limit] option, when
    given, into an integer. *)
Definition main_items (random : bool) (limit : option Z)
  : result (list NewsItem) :=
  let args_limit := match limit with
                    | Some n => n
                    | None => MAX_ITEMS
                    end in
  get_news random args_limit.
End Program.

(* ===================================================================== *)
(** ** Vocabulary of the statements *)
(* ===================================================================== *)

(** The keyword begins and ends with a word character. *)
Definition word_edged (k : text) : bool :=
  word_opt (hd_error k) && word_opt (last_char None k).

(** [k] stands in [s] as a whole word or phrase: it occurs contiguously,
    with no word character right before it and none right after it. *)
Definition occurs_as_word (k s : text) : Prop :=
  exists pre post,
    s = pre ++ k ++ post /\
    word_opt (last_char None pre) = false /\
    word_opt (hd_error post) = false.

(** Two environments in which the libraries behave alike and the feeds of
    the list are fetched with the same outcome. *)
Definition same_inputs (E E' : Env) (feeds : list text) : Prop :=
  (forall url, In url feeds -> urlopen_read E url = urlopen_read E' url) /\
  (forall data, ET_fromstring E data = ET_fromstring E' data) /\
  (forall s, html_unescape E s = html_unescape E' s) /\
  (forall s, parsedate_to_datetime E s = parsedate_to_datetime E' s).

(** The loop body skips the source: the fetch raised or returned no
    bytes, [ET.fromstring] raised [ParseError], or the root of the
    document has no [channel] child.  A payload on which the parser
    raises another exception is not among them. *)
Definition source_skipped (E : Env) (url : text) : bool :=
  match fetch_feed E url with
  | None | Some [] => true
  | Some data =>
      match ET_fromstring E data with
      | Raise ParseError => true
      | Raise _ => false
      | Ok root =>
          match find (str "channel") root with
          | None => true
          | Some _ => false
          end
      end
  end.

(* ===================================================================== *)
(** ** Sample environments *)
(* ===================================================================== *)

(** A small stand-in for [html.unescape]: it decodes four references and
    copies everything else. *)
Definition entity_table : list (text * ascii) :=
  [(str "&amp;", ch "&"); (str "&lt;", ch "<"); (str "&gt;", ch ">");
   (str "&#39;", ch "'")].

Fixpoint lookup_entity (tbl : list (text * ascii)) (s : text)
  : option (ascii * nat) :=
  match tbl with
  | [] => None
  | (name, c) :: tbl' =>
      match match_literal name s with
      | Some _ => Some (c, length name)
      | None => lookup_entity tbl' s
      end
  end.

Equations? unescape_basic (s : text) : text by wf (length s) lt :=
  unescape_basic [] := [];
  unescape_basic (c :: r) with lookup_entity entity_table (c :: r) => {
    | Some (a, n) := a :: unescape_basic (skipn (pred n) r);
    | None := c :: unescape_basic r }.
Proof.
  all: cbn [length]; try lia.
  rewrite length_skipn. lia.
Qed.

(** A stand-in for [parsedate_to_datetime] on the dates of the sample
    feeds; any other string is refused with [ValueError]. *)
Definition sample_dates : list (text * aware_datetime) :=
  [(str "Tue, 03 Jun 2008 11:05:30 GMT",
     mk_aware (mk_datetime 2008 6 3 11 5 30 0) (Some 0));
   (str "Wed, 04 Jun 2008 09:00:00 +0200",
     mk_aware (mk_datetime 2008 6 4 9 0 0 0) (Some 7200));
   (str "Mon, 02 Jun 2008 23:59:59 -0000",
     mk_aware (mk_datetime 2008 6 2 23 59 59 0) None)].

Definition sample_parsedate (s : text) : result aware_datetime :=
  match List.find (fun p => text_eqb (fst p) s) sample_dates with
  | Some p => Ok (snd p)
  | None => Raise ValueError
  end.

Definition bytes (s : string) : list byte := list_byte_of_string s.

Definition leaf (name : string) (content : string) : element :=
  Element (str name) (Some (str content)) [].

Definition xml_item (fields : list element) : element :=
  Element (str "item") None fields.

Definition rss (items : list element) : element :=
  Element (str "rss") None
    [Element (str "channel") None (leaf "title" "Sample feed" :: items)].

(** Source A of the scenario: three items that match a keyword. *)
Definition feed_A : element :=
  rss [
    xml_item [leaf "title" "Rust 2.0 released";
              leaf "link" " https://a.example/rust ";
              leaf "description" "<p>The new compiler &amp; its tools</p>";
              leaf "pubDate" "Tue, 03 Jun 2008 11:05:30 GMT"];
    xml_item [leaf "title" "AI beats humans at Go";
              leaf "link" "https://a.example/go"];
    xml_item [leaf "title" "A quiet week";
              leaf "link" "https://a.example/week";
              leaf "description" "Nothing about computers."];
    xml_item [leaf "title" "New Linux kernel";
              leaf "link" "https://a.example/linux";
              leaf "description" "Kernel 6.0";
              leaf "pubDate" "Wed, 04 Jun 2008 09:00:00 +0200"]
  ].

(** An Atom document: well formed, but without a [channel]. *)
Definition feed_atom : element :=
  Element (str "feed") None
    [Element (str "entry") None [leaf "title" "Python 4 announced"]].

(** A feed whose only item has a blank title. *)
Definition feed_blank : element :=
  rss [
    xml_item [leaf "title" "  ";
              leaf "link" "https://b.example/1";
              leaf "description" "AI"]
  ].

(** A feed whose only item has a [link] element without text. *)
Definition feed_nolink : element :=
  rss [
    xml_item [leaf "title" "Python news";
              Element (str "link") None []]
  ].

Definition sample_documents : list (list byte * element) :=
  [(bytes "document A", feed_A); (bytes "atom document", feed_atom);
   (bytes "blank title document", feed_blank);
   (bytes "empty link document", feed_nolink)].

Definition bytes_eqb (a b : list byte) : bool :=
  if list_eq_dec Byte.byte_eq_dec a b then true else false.

(** A stand-in for [ET.fromstring]: the documents above parse, any other
    payload is not well formed. *)
Definition sample_fromstring (data : list byte) : result element :=
  match List.find (fun p => bytes_eqb (fst p) data) sample_documents with
  | Some p => Ok (snd p)
  | None => Raise ParseError
  end.

Definition nth_feed (n : nat) : text := nth n RSS_FEEDS [].

(** The network of the scenario: the first source answers with document
    A; of the others, one times out, one answers with bytes that are not
    XML, one with an empty body, one with an Atom document. *)
Definition scenario_urlopen (url : text) : result (list byte) :=
  if text_eqb url (nth_feed 0) then Ok (bytes "document A")
  else if text_eqb url (nth_feed 2) then Ok (bytes "<rss><channel>")
  else if text_eqb url (nth_feed 3) then Ok []
  else if text_eqb url (nth_feed 4) then Ok (bytes "atom document")
  else Raise URLError.

Definition sample_env (urlopen : text -> result (list byte)) : Env :=
  {| urlopen_read := urlopen;
     ET_fromstring := sample_fromstring;
     html_unescape := unescape_basic;
     parsedate_to_datetime := sample_parsedate;
     random_shuffle := @rev NewsItem |}.

Definition scenario_env : Env := sample_env scenario_urlopen.

(** Only the first source answers, with the blank-title document. *)
Definition blank_env : Env :=
  sample_env (fun url => if text_eqb url (nth_feed 0)
                         then Ok (bytes "blank title document")
                         else Raise URLError).

(** Only the first source answers, with the document whose item has an
    empty [link] element. *)
Definition nolink_env : Env :=
  sample_env (fun url => if text_eqb url (nth_feed 0)
                         then Ok (bytes "empty link document")
                         else Raise URLError).

(** A payload that is not well-formed (its elements are not closed) and
    declares a multi-byte encoding: [ET.fromstring] refuses it with
    [ValueError] (multi-byte encodings are not supported), not with
    [ParseError]. *)
Definition shift_jis_payload : list byte :=
  bytes "<?xml version='1.0' encoding='shift_jis'?><rss><channel>".

(** The first source answers with document A, the second with the
    payload above, the others do not answer. *)
Definition shift_jis_env : Env :=
  {| urlopen_read := fun url => if text_eqb url (nth_feed 0)
                                then Ok (bytes "document A")
                                else if text_eqb url (nth_feed 1)
                                then Ok shift_jis_payload
                                else Raise URLError;
     ET_fromstring := fun data => if bytes_eqb data shift_jis_payload
                                  then Raise ValueError
                                  else sample_fromstring data;
     html_unescape := unescape_basic;
     parsedate_to_datetime := sample_parsedate;
     random_shuffle := @rev NewsItem |}.

(** The lower bounds that the constructor of [datetime] enforces on its
    fields ([MINYEAR] is 1). *)
Definition in_datetime_range (d : datetime) : Prop :=
  1 <= year d /\ 1 <= month d /\ 1 <= day d /\
  0 <= hour d /\ 0 <= minute d /\ 0 <= second d /\ 0 <= microsecond d.

(** What is assumed of [parsedate_to_datetime] where the order of parsed
    dates and [datetime.min] matters: what it returns is a [datetime],
    so its fields are within these bounds. *)
Definition parsed_dates_in_range (E : Env) : Prop :=
  forall s d, parsedate_to_datetime E s = Ok d -> in_datetime_range (wall d).

(** A date string with the year -1999.  [email.utils] adds 2000 to a
    year below 69, so the string is parsed, as the first instant of the
    year 1, with the offset of its zone, -1999, in seconds. *)
Definition year_one_string : text := str "1 Jan -1999 00:00:00 -1999".

Definition year_one_parsedate (s : text) : result aware_datetime :=
  if text_eqb s year_one_string
  then Ok (mk_aware (mk_datetime 1 1 1 0 0 0 0) (Some (-74340)))
  else sample_parsedate s.

Definition year_one_env : Env :=
  {| urlopen_read := scenario_urlopen;
     ET_fromstring := sample_fromstring;
     html_unescape := unescape_basic;
     parsedate_to_datetime := year_one_parsedate;
     random_shuffle := @rev NewsItem |}.

Definition item_linux : NewsItem :=
  {| title := str "New Linux kernel";
     link := str "https://a.example/linux";
     desc := str "Kernel 6.0...";
     date := mk_datetime 2008 6 4 9 0 0 0;
     source := nth_feed 0 |}.

Definition item_rust : NewsItem :=
  {| title := str "Rust 2.0 released";
     link := str "https://a.example/rust";
     desc := str "The new compiler & its tools...";
     date := mk_datetime 2008 6 3 11 5 30 0;
     source := nth_feed 0 |}.

Definition item_go : NewsItem :=
  {| title := str "AI beats humans at Go";
     link := str "https://a.example/go";
     desc := str "No description.";
     date := datetime_min;
     source := nth_feed 0 |}.

(* ===================================================================== *)
(** ** The collection as a function *)
(* ===================================================================== *)

(** The [item] elements that the loop over a feed visits: those of the
    channel of the fetched document, none when the feed is skipped. *)
Definition channel_items (E : Env) (url : text) : list element :=
  match fetch_feed E url with
  | None | Some [] => []
  | Some data =>
      match ET_fromstring E data with
      | Ok root =>
          match find (str "channel") root with
          | Some channel => findall (str "item") channel
          | None => []
          end
      | Raise _ => []
      end
  end.

(** The news item that an element gives: it needs a title that is a
    non-empty string, a keyword match and a [link] that is a string. *)
Definition build_item (E : Env) (url : text) (item : element)
  : option NewsItem :=
  match find_text item (str "title"), find_text item (str "link") with
  | Some (c :: t), Some raw_link =>
      if is_match (combined_text (c :: t) (find_text item (str "description")))
      then Some {| title := strip (c :: t);
                   link := strip raw_link;
                   desc := item_desc E (find_text item (str "description"));
                   date := parse_date E (find_text item (str "pubDate"));
                   source := url |}
      else None
  | _, _ => None
  end.

Definition option_list {A : Type} (o : option A) : list A :=
  match o with
  | Some a => [a]
  | None => []
  end.

(** The items of one feed, in document order. *)
Definition built_items (E : Env) (url : text) : list NewsItem :=
  flat_map (fun item => option_list (build_item E url item))
           (channel_items E url).

(** The element is accepted but its [link] is [None]: [link.strip()]
    fails. *)
Definition item_raises (item : element) : bool :=
  match find_text item (str "title") with
  | Some (c :: t) =>
      is_match (combined_text (c :: t) (find_text item (str "description")))
      && match find_text item (str "link") with
         | None => true
         | Some _ => false
         end
  | _ => false
  end.

(** The loop body of the feed ends with an exception: the parser raised
    something else than [ParseError], or an item of the channel raises. *)
Definition feed_raises (E : Env) (url : text) : bool :=
  match fetch_feed E url with
  | None | Some [] => false
  | Some data =>
      match ET_fromstring E data with
      | Raise ParseError => false
      | Raise _ => true
      | Ok root =>
          match find (str "channel") root with
          | Some channel => existsb item_raises (findall (str "item") channel)
          | None => false
          end
      end
  end.

(** Why the loop body of a feed ends with the exception [e]. *)
Definition raise_cause (E : Env) (url : text) (e : exn) : Prop :=
  (exists data, fetch_feed E url = Some data /\
                ET_fromstring E data = Raise e) \/
  (e = AttributeError /\
   exists item, In item (channel_items E url) /\ item_raises item = true).

(** What is assumed of [random.shuffle] where shuffle mode is covered:
    it reorders the list. *)
Definition shuffle_permutes (E : Env) : Prop :=
  forall l, Permutation l (random_shuffle E l).

(** No whitespace at either end. *)
Definition trimmed (s : text) : Prop :=
  (forall c, hd_error s = Some c -> is_space c = false) /\
  (forall c, hd_error (rev s) = Some c -> is_space c = false).

(* ===================================================================== *)
(** ** The spinner *)
(* ===================================================================== *)

Definition ESC : ascii := ascii_of_N 27.
Definition backspace : ascii := ascii_of_N 8.
Definition carriage_return : ascii := ascii_of_N 13.

(** [Colors.ENDC] and [Colors.CYAN] *)
Definition ENDC : text := ESC :: str "[0m".
Definition CYAN : text := ESC :: str "[96m".

(** Number of leading characters in a class: a greedy star over it. *)
Fixpoint span (p : ascii -> bool) (s : text) : nat :=
  match s with
  | c :: r => if p c then S (span p r) else O
  | [] => O
  end.

(** Length of the match of
    [\x1B(?:[@-Z\\-_]|\[[0-?]*[ -/]*[@-~])] anchored at the start of [s].
    The three classes of the second branch are disjoint, so the greedy
    stars never have to give a character back. *)
Definition ansi_match (s : text) : option nat :=
  match s with
  | e :: c :: r =>
      if code e =? 27 then
        if in_range 64 90 c || in_range 92 95 c then Some 2%nat
        else if code c =? 91 then
          let n1 := span (in_range 48 63) r in
          let n2 := span (in_range 32 47) (skipn n1 r) in
          match skipn n2 (skipn n1 r) with
          | f :: _ => if in_range 64 126 f then Some (3 + n1 + n2)%nat
                      else None
          | [] => None
          end
        else None
      else None
  | _ => None
  end.

(** [ansi_escape.sub('', s)] *)
Equations? sub_ansi (s : text) : text by wf (length s) lt :=
  sub_ansi [] := [];
  sub_ansi (c :: r) with ansi_match (c :: r) => {
    | Some n := sub_ansi (skipn (pred n) r);
    | None := c :: sub_ansi r }.
Proof.
  all: cbn [length]; try lia.
  rewrite length_skipn. lia.
Qed.

(** The frames of [itertools.cycle(['|', '/', '-', '\\'])]. *)
Definition frames : list ascii := [ch "|"; ch "/"; ch "-"; ch "\"].

(** The attributes of a [Spinner] that its drawing methods use, with the
    position reached in the cycle of frames.  ([delay] only feeds
    [time.sleep] in [run].) *)
Record Spinner : Type := mk_spinner {
  spinner : nat;
  busy : bool;
  spinner_visible : bool;
  message : text;
  message_len : nat
}.

(** [Spinner(message)] *)
Definition Spinner_init (message : text) : Spinner :=
  {| spinner := 0;
     busy := false;
     spinner_visible := false;
     message := message;
     message_len := length (sub_ansi message) |}.

(** [next(self.spinner)] *)
Definition next_frame (sp : Spinner) : ascii :=
  nth (spinner sp mod 4) frames (ch "|").

(** [write_next] and [remove_spinner], each run under the screen lock:
    the spinner and what has been written to [sys.stdout] so far. *)
Definition write_next (st : Spinner * text) : Spinner * text :=
  let (sp, out) := st in
  let out1 := if spinner_visible sp then out
              else out ++ message sp ++ str " " in
  ({| spinner := S (spinner sp);
      busy := busy sp;
      spinner_visible := true;
      message := message sp;
      message_len := message_len sp |},
   out1 ++ [next_frame sp] ++ [backspace]).

Definition remove_spinner (st : Spinner * text) : Spinner * text :=
  let (sp, out) := st in
  if spinner_visible sp then
    ({| spinner := spinner sp;
        busy := busy sp;
        spinner_visible := false;
        message := message sp;
        message_len := message_len sp |},
     out ++ [backspace]
         ++ (ENDC ++ repeat (ch " ") (message_len sp + 2))
         ++ [carriage_return])
  else st.

(** The calls that reach the screen while the spinner runs. *)
Inductive spinner_call : Type :=
| call_write_next
| call_remove_spinner.

Definition do_call (c : spinner_call) (st : Spinner * text) : Spinner * text :=
  match c with
  | call_write_next => write_next st
  | call_remove_spinner => remove_spinner st
  end.

Definition do_calls (cs : list spinner_call) (st : Spinner * text)
  : Spinner * text :=
  fold_left (fun st c => do_call c st) cs st.

(** A colour code of [Colors]: [ESC [ p m]. *)
Definition sgr (p : text) : text := ESC :: ch "[" :: p ++ [ch "m"].

(** What [n] calls of [write_next] animate, from the frame at position
    [k0] of the cycle: each frame is followed by a backspace. *)
Definition animation (k0 n : nat) : text :=
  flat_map (fun k => [nth (k mod 4) frames (ch "|"); backspace]) (seq k0 n).

(* ===================================================================== *)
(** ** The presenter *)
(* ===================================================================== *)

(** [date_str] of [main], for the date of an item; [strftime d] stands
    for [d.strftime('%Y-%m-%d %H:%M')]. *)
Definition date_str (strftime : datetime -> text) (item_date : datetime)
  : text :=
  if negb (dt_eqb item_date datetime_min) then strftime item_date
  else str "Recent".

(** A second document, of one dated item, and an environment in which
    the first source answers with document A and the second with it. *)
Definition feed_B : element :=
  rss [
    xml_item [leaf "title" "Python 3.14 is out";
              leaf "link" "https://b.example/py";
              leaf "description" "Release notes";
              leaf "pubDate" "Mon, 02 Jun 2008 23:59:59 -0000"]
  ].

Definition item_python : NewsItem :=
  {| title := str "Python 3.14 is out";
     link := str "https://b.example/py";
     desc := str "Release notes...";
     date := mk_datetime 2008 6 2 23 59 59 0;
     source := nth_feed 1 |}.

Definition two_sources_env (second : string) (doc : element) : Env :=
  {| urlopen_read := fun url => if text_eqb url (nth_feed 0)
                                then Ok (bytes "document A")
                                else if text_eqb url (nth_feed 1)
                                then Ok (bytes second)
                                else Raise URLError;
     ET_fromstring := fun data => if bytes_eqb data (bytes second)
                                  then Ok doc
                                  else sample_fromstring data;
     html_unescape := unescape_basic;
     parsedate_to_datetime := sample_parsedate;
     random_shuffle := @rev NewsItem |}.

Definition two_feeds_env : Env := two_sources_env "document B" feed_B.

(** A document of two matching items without usable date, and an
    environment in which the second source answers with it. *)
Definition feed_undated : element :=
  rss [
    xml_item [leaf "title" "Notes on Rust"; leaf "link" "https://c.example/1"];
    xml_item [leaf "title" "Notes on Python"; leaf "link" "https://c.example/2";
              leaf "pubDate" "soon"]
  ].

Definition mixed_env : Env := two_sources_env "undated document" feed_undated.

Definition item_notes_rust : NewsItem :=
  {| title := str "Notes on Rust";
     link := str "https://c.example/1";
     desc := str "No description.";
     date := datetime_min;
     source := nth_feed 1 |}.

Definition item_notes_python : NewsItem :=
  {| title := str "Notes on Python";
     link := str "https://c.example/2";
     desc := str "No description.";
     date := datetime_min;
     source := nth_feed 1 |}.

(** The item is dated [datetime.min]. *)
Definition undated (n : NewsItem) : bool := dt_eqb (date n) datetime_min.

(* ===================================================================== *)
(** ** Facts about text *)
(* ===================================================================== *)





Lemma lstrip_app_nonspace (l m : text) (c : ascii) :
  is_space c = false -> lstrip (l ++ c :: m) = lstrip l ++ c :: m.
Proof.
  intros Hc. induction l as [|x l IH]; cbn.
  - now rewrite Hc.
  - destruct (is_space x); [exact IH | reflexivity].
Qed.

Lemma rstrip_cons_nonspace (c : ascii) (s : text) :
  is_space c = false -> rstrip (c :: s) = c :: rstrip s.
Proof.
  intros Hc. unfold rstrip. cbn [rev].
  rewrite lstrip_app_nonspace by exact Hc.
  rewrite rev_app_distr. reflexivity.
Qed.


Lemma lstrip_head (s : text) :
  lstrip s = [] \/ exists c r, lstrip s = c :: r /\ is_space c = false.
Proof.
  induction s as [|c r IH]; cbn; [now left|].
  destruct (is_space c) eqn:Hc; [exact IH|].
  right. now exists c, r.
Qed.



(** *** The tag pattern *)

Example sub_tags_ex :
  sub_tags (str "<p>Hello <b>world</b></p> a<b") = str "Hello world a<b".
Proof. vm_compute. reflexivity. Qed.






(** Nothing is deleted from a text in which the pattern matches nowhere. *)
Lemma sub_tags_no_tag (s : text) : has_tag s = false -> sub_tags s = s.
Proof.
  induction s as [|c r IH]; intros H; simp sub_tags; [reflexivity|].
  cbn [has_tag] in H.
  destruct (tag_match (c :: r)) eqn:Hm; [discriminate|].
  cbn. now rewrite IH.
Qed.

(** A match of the pattern is a [<], characters other than a newline,
    and a [>]. *)
Lemma lazy_to_gt_some (r : text) (n : nat) :
  lazy_to_gt r = Some n ->
  exists body post, r = body ++ ch ">" :: post /\ ~ In newline body /\
                    n = S (length body).
Proof.
  revert n. induction r as [|c r IH]; cbn [lazy_to_gt]; intros n H;
    [discriminate|].
  destruct (Ascii.eqb c (ch ">")) eqn:Hgt.
  - apply Ascii.eqb_eq in Hgt. subst c. injection H as <-.
    exists [], r. cbn. auto.
  - destruct (Ascii.eqb c newline) eqn:Hnl; [discriminate|].
    destruct (lazy_to_gt r) as [m|]; [|discriminate]. injection H as <-.
    destruct (IH m eq_refl) as (body & post & -> & Hbody & ->).
    exists (c :: body), post. cbn. repeat split; auto.
    intros [->|Hin]; [|auto]. now rewrite Ascii.eqb_refl in Hnl.
Qed.

Lemma lazy_to_gt_body (body post : text) :
  ~ In newline body -> lazy_to_gt (body ++ ch ">" :: post) <> None.
Proof.
  induction body as [|c body IH]; cbn [lazy_to_gt app]; intros Hnl.
  - rewrite Ascii.eqb_refl. discriminate.
  - destruct (Ascii.eqb c (ch ">")); [discriminate|].
    destruct (Ascii.eqb c newline) eqn:Hc.
    + apply Ascii.eqb_eq in Hc. exfalso. apply Hnl. left. now symmetry.
    + destruct (lazy_to_gt (body ++ ch ">" :: post)) eqn:Hl; [discriminate|].
      exfalso. apply IH; [|reflexivity]. intros Hin. apply Hnl. now right.
Qed.

Lemma has_tag_iff (s : text) :
  has_tag s = true <->
  exists pre body post,
    s = pre ++ ch "<" :: body ++ ch ">" :: post /\ ~ In newline body.
Proof.
  split.
  - induction s as [|c r IH]; cbn [has_tag]; [discriminate|].
    destruct (tag_match (c :: r)) as [n|] eqn:Hm.
    + intros _. cbn [tag_match] in Hm.
      destruct (Ascii.eqb c (ch "<")) eqn:Hc; [|discriminate].
      apply Ascii.eqb_eq in Hc. subst c.
      destruct (lazy_to_gt r) as [m|] eqn:Hl; [|discriminate].
      destruct (lazy_to_gt_some r m Hl) as (body & post & -> & Hb & _).
      now exists [], body, post.
    + intros H. destruct (IH H) as (pre & body & post & -> & Hb).
      now exists (c :: pre), body, post.
  - intros (pre & body & post & -> & Hb).
    induction pre as [|c pre IH].
    + cbn [app has_tag tag_match]. rewrite Ascii.eqb_refl.
      destruct (lazy_to_gt (body ++ ch ">" :: post)) eqn:Hl; [reflexivity|].
      now apply lazy_to_gt_body in Hl.
    + cbn [app has_tag]. destruct (tag_match _); [reflexivity | exact IH].
Qed.

(** *** The keyword pattern *)

Lemma match_literal_iff (k s rest : text) :
  match_literal k s = Some rest <-> s = k ++ rest.
Proof.
  revert s. induction k as [|a k IH]; intros s; cbn.
  - split; [now intros [= ->] | now intros ->].
  - destruct s as [|b s]; [split; discriminate|].
    destruct (Ascii.eqb a b) eqn:Hab.
    + apply Ascii.eqb_eq in Hab. subst b. rewrite IH.
      split; [now intros -> | now intros [= ->]].
    + split; [discriminate|]. intros [= -> _].
      now rewrite Ascii.eqb_refl in Hab.
Qed.

Lemma last_char_app (prev : option ascii) (a b : text) :
  last_char prev (a ++ b) = last_char (last_char prev a) b.
Proof. apply fold_left_app. Qed.

(** [re.search] succeeds exactly when the text splits around an
    occurrence of the keyword with a [\b] on either side of it. *)
Lemma search_from_iff (k : text) (prev : option ascii) (s : text) :
  search_from k prev s = true <->
  exists pre post,
    s = pre ++ k ++ post /\
    boundary (last_char prev pre) (hd_error (k ++ post)) = true /\
    boundary (last_char prev (pre ++ k)) (hd_error post) = true.
Proof.
  split.
  - revert prev. induction s as [|c r IH]; intros prev H.
    + cbn [search_from] in H. rewrite orb_false_r in H.
      unfold match_at in H. apply andb_true_iff in H as [H1 H2].
      destruct (match_literal k []) as [rest|] eqn:Hm; [|discriminate].
      apply match_literal_iff in Hm. exists [], rest.
      cbn [app]. rewrite <- Hm. auto.
    + cbn [search_from] in H. apply orb_true_iff in H as [H|H].
      * unfold match_at in H. apply andb_true_iff in H as [H1 H2].
        destruct (match_literal k (c :: r)) as [rest|] eqn:Hm; [|discriminate].
        apply match_literal_iff in Hm. exists [], rest.
        cbn [app]. rewrite <- Hm. auto.
      * destruct (IH _ H) as (pre & post & -> & H1 & H2).
        exists (c :: pre), post. auto.
  - intros (pre & post & -> & H1 & H2). revert prev H1 H2.
    induction pre as [|c pre IH]; intros prev H1 H2.
    + cbn [app last_char fold_left] in *.
      assert (Hm : match_at k prev (k ++ post) = true).
      { unfold match_at. rewrite H1.
        rewrite (proj2 (match_literal_iff k (k ++ post) post) eq_refl).
        exact H2. }
      destruct (k ++ post); cbn [search_from]; now rewrite Hm.
    + cbn [app search_from]. apply orb_true_iff. right.
      apply IH; assumption.
Qed.

Lemma re_search_word_iff (k s : text) :
  word_edged k = true ->
  (re_search_word k s = true <-> occurs_as_word k s).
Proof.
  unfold word_edged, re_search_word, occurs_as_word. intros Hk.
  apply andb_true_iff in Hk as [Hhd Hlast].
  destruct k as [|a k]; [discriminate|]. cbn [hd_error word_opt] in Hhd.
  rewrite search_from_iff.
  split; intros (pre & post & -> & H1 & H2); exists pre, post;
    (split; [reflexivity|]);
    rewrite last_char_app in *; cbn [app hd_error] in *;
    change (last_char (last_char None pre) (a :: k))
      with (last_char None (a :: k)) in *;
    unfold boundary in *; rewrite Hlast in *; cbn [word_opt] in *;
    rewrite Hhd in *;
    destruct (word_opt (last_char None pre)), (word_opt (hd_error post));
    cbn in *; auto; try discriminate.
Qed.

Lemma KEYWORDS_word_edged : forallb word_edged KEYWORDS = true.
Proof. vm_compute. reflexivity. Qed.

Lemma is_match_iff (t : text) :
  is_match t = true <-> exists k, In k KEYWORDS /\ occurs_as_word k t.
Proof.
  unfold is_match. rewrite existsb_exists.
  pose proof (proj1 (forallb_forall _ _) KEYWORDS_word_edged) as Hk.
  split; intros (k & Hin & H); exists k; (split; [exact Hin|]);
    now apply (re_search_word_iff k t (Hk k Hin)).
Qed.

(* ===================================================================== *)
(** ** The order on datetimes *)
(* ===================================================================== *)

Lemma lex_ltb_irrefl (a : list Z) : lex_ltb a a = false.
Proof.
  induction a as [|x a IH]; cbn; [reflexivity|].
  rewrite Z.ltb_irrefl, Z.eqb_refl, IH. reflexivity.
Qed.

Lemma lex_ltb_negtrans (a b c : list Z) :
  lex_ltb a c = true -> lex_ltb a b = true \/ lex_ltb b c = true.
Proof.
  revert b c. induction a as [|x a IH]; intros b c; destruct c as [|y c];
    destruct b as [|z b]; cbn; auto; try discriminate.
  intros H. apply orb_true_iff in H as [H|H].
  - apply Z.ltb_lt in H. destruct (Z.ltb_spec x z); [now left|].
    right. replace (z <? y) with true; [reflexivity|].
    symmetry. apply Z.ltb_lt. lia.
  - apply andb_true_iff in H as [Hxy H]. apply Z.eqb_eq in Hxy. subst y.
    destruct (Z.ltb_spec x z); [now left|].
    destruct (Z.ltb_spec z x); [now right|].
    replace z with x by lia. rewrite Z.eqb_refl. cbn.
    apply IH. exact H.
Qed.

Lemma lex_ltb_asym (a b : list Z) : lex_ltb a b = true -> lex_ltb b a = false.
Proof.
  intros H. destruct (lex_ltb b a) eqn:Hba; [|reflexivity].
  pose proof (lex_ltb_irrefl a) as Hirr.
  assert (Haa : lex_ltb a a = true).
  { revert b H Hba. induction a as [|x a IH]; intros b H Hba;
      destruct b as [|y b]; cbn in *; try discriminate.
    apply orb_true_iff in H as [H|H]; apply orb_true_iff in Hba as [H'|H'].
    - apply Z.ltb_lt in H, H'. lia.
    - apply andb_true_iff in H' as [H' _]. apply Z.ltb_lt in H.
      apply Z.eqb_eq in H'. lia.
    - apply andb_true_iff in H as [H _]. apply Z.ltb_lt in H'.
      apply Z.eqb_eq in H. lia.
    - apply andb_true_iff in H as [_ H]. apply andb_true_iff in H' as [_ H'].
      rewrite Z.ltb_irrefl, Z.eqb_refl. cbn. apply (IH (lex_ltb_irrefl a) b H H'). }
  congruence.
Qed.

Lemma lex_ltb_total (a b : list Z) :
  lex_ltb a b = false -> lex_ltb b a = false -> a = b.
Proof.
  revert b. induction a as [|x a IH]; intros b; destruct b as [|y b]; cbn;
    auto; try discriminate.
  intros H1 H2. apply orb_false_iff in H1 as [Hxy H1].
  apply orb_false_iff in H2 as [Hyx H2].
  apply Z.ltb_ge in Hxy, Hyx. assert (x = y) by lia. subst y.
  rewrite Z.eqb_refl in H1, H2. cbn in H1, H2. f_equal. now apply IH.
Qed.

Lemma dt_tuple_inj (a b : datetime) : dt_tuple a = dt_tuple b -> a = b.
Proof. destruct a, b. cbn. now intros [= -> -> -> -> -> -> ->]. Qed.

Lemma dt_ltb_irrefl (a : datetime) : dt_ltb a a = false.
Proof. apply lex_ltb_irrefl. Qed.

Lemma dt_ltb_asym (a b : datetime) : dt_ltb a b = true -> dt_ltb b a = false.
Proof. apply lex_ltb_asym. Qed.

Lemma dt_ltb_negtrans (a b c : datetime) :
  dt_ltb a c = true -> dt_ltb a b = true \/ dt_ltb b c = true.
Proof. apply lex_ltb_negtrans. Qed.

Lemma dt_ltb_total (a b : datetime) :
  dt_ltb a b = false -> dt_ltb b a = false -> a = b.
Proof. intros H1 H2. apply dt_tuple_inj. now apply lex_ltb_total. Qed.

Lemma dt_eqb_eq (a b : datetime) : dt_eqb a b = true <-> a = b.
Proof.
  unfold dt_eqb. split.
  - intros H. apply andb_true_iff in H as [H1 H2].
    apply negb_true_iff in H1, H2. now apply dt_ltb_total.
  - intros ->. now rewrite dt_ltb_irrefl.
Qed.

(** A datetime of a year after the year 1 comes strictly after
    [datetime.min]. *)
Lemma dt_ltb_min_year (d : datetime) : 1 < year d -> dt_ltb datetime_min d = true.
Proof.
  intros H. unfold dt_ltb. destruct d as [y mo da h mi s us]. cbn in *.
  apply orb_true_iff. left. apply Z.ltb_lt. exact H.
Qed.

(* ===================================================================== *)
(** ** [list.sort] is a stable sort *)
(* ===================================================================== *)

Section SortFacts.
Context {A K : Type} (key : A -> K) (lt : K -> K -> bool).
Hypothesis lt_asym : forall a b, lt a b = true -> lt b a = false.
Hypothesis lt_negtrans :
  forall a b c, lt a c = true -> lt a b = true \/ lt b c = true.
Variable reverse : bool.

Abbreviation before := (comes_first key lt reverse).
Abbreviation ordered := (in_order key lt reverse).
Abbreviation keyed := (same_key key lt).

Lemma before_asym (a b : A) : before a b = true -> before b a = false.
Proof. unfold comes_first. destruct reverse; apply lt_asym. Qed.

Lemma before_negtrans (a b c : A) :
  before a c = true -> before a b = true \/ before b c = true.
Proof.
  unfold comes_first. destruct reverse; intros H.
  - destruct (lt_negtrans _ (key b) _ H); auto.
  - now apply lt_negtrans.
Qed.

Lemma before_same_key (d : K) (a b : A) :
  keyed d a = true -> keyed d b = true -> before a b = false.
Proof.
  unfold same_key. intros Ha Hb.
  apply andb_true_iff in Ha as [Ha1 Ha2]. apply andb_true_iff in Hb as [Hb1 Hb2].
  apply negb_true_iff in Ha1, Ha2, Hb1, Hb2.
  unfold comes_first.
  destruct reverse.
  - destruct (lt (key b) (key a)) eqn:H; [|reflexivity].
    destruct (lt_negtrans _ d _ H); congruence.
  - destruct (lt (key a) (key b)) eqn:H; [|reflexivity].
    destruct (lt_negtrans _ d _ H); congruence.
Qed.

Lemma insert_perm (x : A) (l : list A) :
  Permutation (x :: l) (insert key lt reverse x l).
Proof.
  induction l as [|y l IH]; cbn; [reflexivity|].
  destruct (before y x); [|reflexivity].
  rewrite perm_swap. now constructor.
Qed.

Lemma list_sort_perm (l : list A) : Permutation l (list_sort key lt reverse l).
Proof.
  induction l as [|x l IH]; cbn; [constructor|].
  rewrite <- insert_perm. now constructor.
Qed.

Lemma insert_sorted (x : A) (l : list A) :
  StronglySorted ordered l ->
  StronglySorted ordered (insert key lt reverse x l).
Proof.
  induction 1 as [|y l Hs IH Hy]; cbn.
  - repeat constructor.
  - destruct (before y x) eqn:Hyx.
    + constructor; [exact IH|].
      apply (Permutation_Forall (insert_perm x l)).
      constructor; [now apply before_asym | exact Hy].
    + constructor; [now constructor|].
      constructor; [exact Hyx|].
      apply Forall_forall. intros z Hz.
      pose proof (proj1 (Forall_forall _ _) Hy z Hz) as Hyz.
      unfold in_order in *.
      destruct (before z x) eqn:Hzx; [|reflexivity].
      destruct (before_negtrans z y x Hzx); congruence.
Qed.

Lemma list_sort_sorted (l : list A) :
  StronglySorted ordered (list_sort key lt reverse l).
Proof.
  induction l as [|x l IH]; cbn; [constructor | now apply insert_sorted].
Qed.

Lemma insert_stable (d : K) (x : A) (l : list A) :
  filter (keyed d) (insert key lt reverse x l) = filter (keyed d) (x :: l).
Proof.
  induction l as [|y l IH]; [reflexivity|].
  cbn [insert]. destruct (before y x) eqn:Hyx; [|reflexivity].
  cbn [filter] in *. rewrite IH.
  destruct (keyed d x) eqn:Hx, (keyed d y) eqn:Hy; try reflexivity.
  rewrite (before_same_key d y x Hy Hx) in Hyx. discriminate.
Qed.

Lemma list_sort_stable (d : K) (l : list A) :
  filter (keyed d) (list_sort key lt reverse l) = filter (keyed d) l.
Proof.
  induction l as [|x l IH]; [reflexivity|].
  cbn [list_sort]. rewrite insert_stable. cbn [filter]. now rewrite IH.
Qed.
End SortFacts.

Lemma StronglySorted_nth {A : Type} (R : A -> A -> Prop) (l : list A) :
  StronglySorted R l ->
  forall i j a b, (i < j)%nat ->
    nth_error l i = Some a -> nth_error l j = Some b -> R a b.
Proof.
  induction 1 as [|x l Hs IH Hx]; intros i j a b Hij Hi Hj.
  - destruct i; discriminate.
  - destruct j as [|j]; [lia|]. cbn in Hj.
    destruct i as [|i]; cbn in Hi.
    + injection Hi as <-. apply nth_error_In in Hj.
      exact (proj1 (Forall_forall _ _) Hx b Hj).
    + apply (IH i j); [lia | assumption | assumption].
Qed.

Example sort_equal_dates :
  let a := mk_item (str "a") [] [] datetime_min [] in
  let b := mk_item (str "b") [] [] (mk_datetime 2024 5 17 8 30 0 0) [] in
  let c := mk_item (str "c") [] [] datetime_min [] in
  let d := mk_item (str "d") [] [] (mk_datetime 2024 5 17 8 30 0 0) [] in
  list_sort date dt_ltb true [a; b; c; d] = [b; d; a; c].
Proof. vm_compute. reflexivity. Qed.

(** *** Slices *)

Lemma slice_to_nonneg {A : Type} (l : list A) (stop : Z) :
  0 <= stop -> slice_to l stop = firstn (Z.to_nat stop) l.
Proof.
  intros H. unfold slice_to.
  destruct (Z.ltb_spec stop 0); [lia|].
  destruct (Z.le_gt_cases stop (Z.of_nat (length l))).
  - now rewrite Z.min_l.
  - rewrite Z.min_r by lia. rewrite Nat2Z.id.
    rewrite !firstn_all2; [reflexivity | lia | lia].
Qed.

Lemma slice_to_neg {A : Type} (l : list A) (stop : Z) :
  stop < 0 -> slice_to l stop = firstn (length l - Z.to_nat (- stop)) l.
Proof.
  intros H. unfold slice_to.
  destruct (Z.ltb_spec stop 0); [|lia].
  f_equal. lia.
Qed.

(* ===================================================================== *)
(** ** Facts about the loops *)
(* ===================================================================== *)

Lemma for_each_ext {A : Type} (f g : A -> M unit) (l : list A) :
  (forall x, In x l -> forall st, f x st = g x st) ->
  forall st, for_each f l st = for_each g l st.
Proof.
  induction l as [|x l IH]; intros H st; [reflexivity|].
  cbn [for_each]. unfold bind. rewrite (H x (or_introl eq_refl)).
  destruct (g x st) as [st' [u|e]]; [|reflexivity].
  apply IH. intros y Hy. apply H. now right.
Qed.

Lemma for_each_skip {A : Type} (body : A -> M unit) (skip : A -> bool)
      (l : list A) :
  (forall x st, skip x = true -> body x st = (st, Ok tt)) ->
  forall st,
    for_each body l st = for_each body (filter (fun x => negb (skip x)) l) st.
Proof.
  intros H. induction l as [|x l IH]; intros st; [reflexivity|].
  cbn [for_each filter]. destruct (skip x) eqn:Hx; cbn [negb for_each].
  - unfold bind at 1. rewrite (H x st Hx). apply IH.
  - unfold bind. destruct (body x st) as [st' [u|e]]; [apply IH | reflexivity].
Qed.

(** The three ways an item leaves the loop body. *)
Lemma item_body_cases (E : Env) (url : text) (item : element)
      (st : list NewsItem) :
  item_body E url item st = (st, Ok tt) \/
  (item_body E url item st = (st, Raise AttributeError) /\
   find_text item (str "link") = None) \/
  exists raw_title raw_link,
    find_text item (str "title") = Some raw_title /\ raw_title <> [] /\
    find_text item (str "link") = Some raw_link /\
    is_match (combined_text raw_title (find_text item (str "description")))
      = true /\
    item_body E url item st =
      (st ++ [ {| title := strip raw_title;
                  link := strip raw_link;
                  desc := item_desc E (find_text item (str "description"));
                  date := parse_date E (find_text item (str "pubDate"));
                  source := url |} ], Ok tt).
Proof.
  unfold item_body.
  destruct (find_text item (str "title")) as [[|c t]|]; [now left| |now left].
  destruct (is_match _) eqn:Hm; [|now left].
  destruct (find_text item (str "link")) as [l|] eqn:Hl.
  - right. right. exists (c :: t), l. repeat split; try assumption.
    discriminate.
  - right. left. split; reflexivity.
Qed.

Lemma item_body_ext (E E' : Env) (url : text) (item : element)
      (st : list NewsItem) :
  (forall s, html_unescape E s = html_unescape E' s) ->
  (forall s, parsedate_to_datetime E s = parsedate_to_datetime E' s) ->
  item_body E url item st = item_body E' url item st.
Proof.
  intros Hu Hp. unfold item_body.
  destruct (find_text item (str "title")) as [[|c t]|]; try reflexivity.
  destruct (is_match _); [|reflexivity].
  unfold bind, call. destruct (strip_method _) as [l|e]; [|reflexivity].
  unfold append. do 3 f_equal.
  assert (Hd : forall v, item_desc E v = item_desc E' v).
  { intros v. unfold item_desc, clean_html.
    destruct v as [[|x r]|]; cbn [truthy]; try reflexivity. now rewrite Hu. }
  assert (Ht : forall v, parse_date E v = parse_date E' v).
  { intros v. unfold parse_date.
    destruct v as [[|x r]|]; try reflexivity. now rewrite Hp. }
  now rewrite Hd, Ht.
Qed.

Lemma feed_body_ext (E E' : Env) (url : text) (st : list NewsItem) :
  urlopen_read E url = urlopen_read E' url ->
  (forall data, ET_fromstring E data = ET_fromstring E' data) ->
  (forall s, html_unescape E s = html_unescape E' s) ->
  (forall s, parsedate_to_datetime E s = parsedate_to_datetime E' s) ->
  feed_body E url st = feed_body E' url st.
Proof.
  intros Hf Hx Hu Hp. unfold feed_body, fetch_feed. rewrite Hf.
  destruct (urlopen_read E' url) as [[|b data]|e]; try reflexivity.
  unfold except_ParseError, bind, call. rewrite Hx.
  destruct (ET_fromstring E' (b :: data)) as [root|e]; [|reflexivity].
  destruct (find (str "channel") root) as [channel|]; [|reflexivity].
  rewrite (for_each_ext (item_body E url) (item_body E' url)); [reflexivity|].
  intros item _ st0. now apply item_body_ext.
Qed.

Lemma get_news_from_ext (E E' : Env) (feeds : list text) (limit : Z) :
  same_inputs E E' feeds ->
  get_news_from E feeds false limit = get_news_from E' feeds false limit.
Proof.
  intros (Hf & Hx & Hu & Hp). unfold get_news_from.
  rewrite (for_each_ext (feed_body E) (feed_body E')); [reflexivity|].
  intros url Hin st. apply feed_body_ext; auto.
Qed.

Lemma feed_body_skipped (E : Env) (url : text) (st : list NewsItem) :
  source_skipped E url = true -> feed_body E url st = (st, Ok tt).
Proof.
  unfold source_skipped, feed_body.
  destruct (fetch_feed E url) as [[|b data]|]; try reflexivity.
  unfold except_ParseError, bind, call.
  destruct (ET_fromstring E (b :: data)) as [root|[]]; try discriminate.
  - destruct (find (str "channel") root); [discriminate | reflexivity].
  - reflexivity.
Qed.

(** An exception of the parser other than [ParseError] is not handled:
    it leaves the loop and [get_news]. *)
Lemma parser_exception_propagates (E : Env) (url : text) (data : list byte)
      (e : exn) (st : list NewsItem) :
  fetch_feed E url = Some data -> data <> [] ->
  ET_fromstring E data = Raise e -> e <> ParseError ->
  feed_body E url st = (st, Raise e).
Proof.
  intros Hf Hd He Hne. unfold feed_body. rewrite Hf.
  destruct data as [|b data]; [congruence|].
  unfold except_ParseError, bind, call. rewrite He.
  destruct e; congruence.
Qed.

(** *** The sample environments *)

Example scenario_run :
  get_news scenario_env false MAX_ITEMS = Ok [item_linux; item_rust; item_go].
Proof. vm_compute. reflexivity. Qed.

(** A matching item whose [link] element has no text stops the run:
    [None] has no [strip]. *)
Example empty_link_raises :
  get_news nolink_env false MAX_ITEMS = Raise AttributeError.
Proof. vm_compute. reflexivity. Qed.

Lemma lex_ltb_pointwise (a b : list Z) :
  Forall2 Z.le b a -> lex_ltb a b = false.
Proof.
  induction 1 as [|y x b a Hyx _ IH]; [reflexivity|].
  cbn. destruct (Z.ltb_spec x y); [lia|]. cbn. now rewrite IH, andb_false_r.
Qed.

(** No datetime within the bounds is before [datetime.min]. *)
Lemma in_range_not_before_min (d : datetime) :
  in_datetime_range d -> dt_ltb d datetime_min = false.
Proof.
  intros (H1 & H2 & H3 & H4 & H5 & H6 & H7). unfold dt_ltb.
  apply lex_ltb_pointwise. destruct d. cbn in *. repeat constructor; assumption.
Qed.

Lemma sample_parsedate_in_range (s : text) (d : aware_datetime) :
  sample_parsedate s = Ok d -> in_datetime_range (wall d).
Proof.
  unfold sample_parsedate.
  destruct (List.find _ sample_dates) as [p|] eqn:Hf; [|discriminate].
  intros [= <-]. apply find_some in Hf as [Hin _].
  assert (Hall : Forall (fun p => in_datetime_range (wall (snd p))) sample_dates)
    by (repeat constructor; unfold in_datetime_range; cbn; lia).
  exact (proj1 (Forall_forall _ _) Hall p Hin).
Qed.

Lemma year_one_parsedate_in_range (s : text) (d : aware_datetime) :
  year_one_parsedate s = Ok d -> in_datetime_range (wall d).
Proof.
  unfold year_one_parsedate. destruct (text_eqb s year_one_string).
  - intros [= <-]. unfold in_datetime_range. cbn. lia.
  - apply sample_parsedate_in_range.
Qed.



(* ===================================================================== *)
(** ** The claims *)
(* ===================================================================== *)

(** C1 (the code departs from the claim).  The claim: every news item in
    the output has a non-empty title after trimming.  The program tests
    the raw title and stores the trimmed one, so a title made of blanks
    passes the test: the run below returns an item whose title is the
    empty string. *)
Theorem blank_title_reaches_output :
  get_news blank_env false MAX_ITEMS =
  Ok [ {| title := [];
          link := str "https://b.example/1";
          desc := str "AI...";
          date := datetime_min;
          source := nth_feed 0 |} ].
Proof. vm_compute. reflexivity. Qed.

(** C2.  The keyword loop accepts the lowercased title and description,
    joined by one space, exactly when some keyword of the list occurs in
    it contiguously with no word character right before and none right
    after.  So ["ai"] is not found in ["said"] or ["aim"] but is found in
    the lowercased ["AI"], and ["machine learning"] is found only where
    the whole phrase stands. *)
Theorem keyword_filter_whole_words :
  (forall (title : text) (desc : option text),
      is_match (combined_text title desc) = true <->
      exists k, In k KEYWORDS /\
        occurs_as_word k
          (lower title ++ str " " ++
           match desc with Some d => lower d | None => [] end)) /\
  re_search_word (str "ai") (str "said") = false /\
  re_search_word (str "ai") (str "aim") = false /\
  re_search_word (str "ai") (lower (str "AI")) = true /\
  is_match (combined_text (str "He said: aim high") None) = false /\
  is_match (combined_text (str "Why AI?") None) = true /\
  (forall s, re_search_word (str "machine learning") s = true ->
             exists pre post, s = pre ++ str "machine learning" ++ post) /\
  re_search_word (str "machine learning") (str "machine and learning") = false /\
  is_match (combined_text (str "The machine is learning") None) = false /\
  is_match (combined_text (str "On Machine Learning") (Some (str "x"))) = true.
Proof.
  split.
  { intros t d. rewrite is_match_iff.
    assert (Hc : combined_text t d =
                 lower t ++ str " " ++ match d with Some d => lower d | None => [] end).
    { unfold combined_text. destruct d as [[|c r]|]; reflexivity. }
    rewrite Hc. reflexivity. }
  do 5 (split; [vm_compute; reflexivity|]).
  split.
  { intros s H. apply re_search_word_iff in H; [|vm_compute; reflexivity].
    destruct H as (pre & post & -> & _). now exists pre, post. }
  do 2 (split; [vm_compute; reflexivity|]).
  vm_compute. reflexivity.
Qed.

(** C3.  When the loop body accepts an item, the description it stores is
    the sanitized description cut to 200 characters followed by ["..."]
    if the raw description is a non-empty string (the marker is added
    also when nothing was cut), and ["No description."] otherwise. *)
Theorem accepted_item_description (E : Env) (url : text) (item : element)
        (st st' : list NewsItem) :
  item_body E url item st = (st', Ok tt) ->
  st' <> st ->
  let raw := find_text item (str "description") in
  exists n,
    st' = st ++ [n] /\
    (truthy raw = true ->
       desc n = firstn 200 (clean_html E raw) ++ str "..." /\
       ((length (clean_html E raw) <= 200)%nat ->
          desc n = clean_html E raw ++ str "...")) /\
    (truthy raw = false -> desc n = str "No description.").
Proof.
  intros Hrun Hne raw.
  destruct (item_body_cases E url item st) as [H|[[H _]|H]].
  - rewrite H in Hrun. congruence.
  - rewrite H in Hrun. discriminate.
  - destruct H as (t & l & _ & _ & _ & _ & H).
    assert (Hst : st' = fst (item_body E url item st)) by now rewrite Hrun.
    rewrite H in Hst. cbn [fst] in Hst. subst st'.
    eexists. split; [reflexivity|].
    cbn [desc]. unfold item_desc. fold raw.
    destruct (truthy raw); split; try discriminate; intros _.
    + split; [reflexivity|]. intros Hlen. now rewrite firstn_all2.
    + reflexivity.
Qed.

Lemma accepted_item_description_witness :
  exists n,
    [item_rust] = [] ++ [n] /\
    (true = true ->
       desc n = str "The new compiler & its tools" ++ str "..." /\
       ((28 <= 200)%nat -> desc n = str "The new compiler & its tools" ++ str "...")) /\
    (true = false -> desc n = str "No description.").
Proof.
  apply (accepted_item_description scenario_env (nth_feed 0)
           (xml_item [leaf "title" "Rust 2.0 released";
                      leaf "link" " https://a.example/rust ";
                      leaf "description" "<p>The new compiler &amp; its tools</p>";
                      leaf "pubDate" "Tue, 03 Jun 2008 11:05:30 GMT"])
           [] [item_rust]).
  - vm_compute. reflexivity.
  - discriminate.
Defined.

(** C4.  In date mode the output is the slice of the collected list
    sorted by date, newest first: the ranked list is a permutation of the
    collected one; of two items the earlier in the ranking never has the
    older date, and has the newer one when the dates differ; the items of
    any one date ([datetime.min] included) stand in collection order; and
    the output depends only on what was fetched, not on the run. *)
Theorem date_mode_stable_sort (E : Env) (feeds : list text) (limit : Z)
        (all_items : list NewsItem) :
  for_each (feed_body E) feeds [] = (all_items, Ok tt) ->
  let ranked := rank E false all_items in
  get_news_from E feeds false limit = Ok (slice_to ranked limit) /\
  Permutation all_items ranked /\
  (forall i j a b, (i < j)%nat ->
     nth_error ranked i = Some a -> nth_error ranked j = Some b ->
     dt_ltb (date a) (date b) = false /\
     (date a <> date b -> dt_ltb (date b) (date a) = true)) /\
  (forall d, filter (fun x => dt_eqb (date x) d) ranked =
             filter (fun x => dt_eqb (date x) d) all_items) /\
  (forall E', same_inputs E E' feeds ->
     get_news_from E' feeds false limit = get_news_from E feeds false limit).
Proof.
  intros Hrun ranked. subst ranked. unfold rank.
  split; [|split; [|split; [|split]]].
  - unfold get_news_from. now rewrite Hrun.
  - apply list_sort_perm.
  - intros i j a b Hij Hi Hj.
    pose proof (list_sort_sorted date dt_ltb dt_ltb_asym dt_ltb_negtrans
                  true all_items) as Hs.
    pose proof (StronglySorted_nth _ _ Hs i j a b Hij Hi Hj) as Hab.
    unfold in_order, comes_first in Hab. split; [exact Hab|].
    intros Hne. destruct (dt_ltb (date b) (date a)) eqn:Hba; [reflexivity|].
    exfalso. apply Hne. now apply dt_ltb_total.
  - intros d.
    apply (list_sort_stable date dt_ltb dt_ltb_negtrans true d all_items).
  - intros E' HE. symmetry. now apply get_news_from_ext.
Qed.

Lemma date_mode_stable_sort_witness :
  for_each (feed_body scenario_env) RSS_FEEDS [] =
    ([item_rust; item_go; item_linux], Ok tt) /\
  get_news_from scenario_env RSS_FEEDS false MAX_ITEMS =
    Ok (slice_to (rank scenario_env false [item_rust; item_go; item_linux])
          MAX_ITEMS) /\
  rank scenario_env false [item_rust; item_go; item_linux] =
    [item_linux; item_rust; item_go].
Proof.
  assert (H : for_each (feed_body scenario_env) RSS_FEEDS [] =
              ([item_rust; item_go; item_linux], Ok tt))
    by (vm_compute; reflexivity).
  split; [exact H|].
  split; [|vm_compute; reflexivity].
  exact (proj1 (date_mode_stable_sort scenario_env RSS_FEEDS MAX_ITEMS _ H)).
Defined.

(** C5, as the code has it.  [parse_date] returns a datetime for every
    input; it returns [datetime.min] for [None], for the empty string
    and for every string that [parsedate_to_datetime] refuses; and no
    parsed date is before [datetime.min]: it is strictly after it, or it
    is [datetime.min] itself.  The hypothesis is that what the library
    returns is a [datetime]. *)
Theorem parse_date_sentinel_least (E : Env) :
  parsed_dates_in_range E ->
  parse_date E None = datetime_min /\
  parse_date E (Some []) = datetime_min /\
  (forall s e, parsedate_to_datetime E s = Raise e ->
               parse_date E (Some s) = datetime_min) /\
  (forall (s : text) d, s <> [] -> parsedate_to_datetime E s = Ok d ->
               parse_date E (Some s) = wall d /\
               dt_ltb (parse_date E (Some s)) datetime_min = false /\
               (dt_ltb datetime_min (parse_date E (Some s)) = true \/
                wall d = datetime_min)) /\
  (forall v, dt_ltb (parse_date E v) datetime_min = false).
Proof.
  intros Hrange.
  assert (Hok : forall (s : text) d, s <> [] -> parsedate_to_datetime E s = Ok d ->
                parse_date E (Some s) = wall d /\
                dt_ltb (wall d) datetime_min = false).
  { intros s d Hs Hd. split.
    - unfold parse_date. destruct s; [congruence|]. now rewrite Hd.
    - apply in_range_not_before_min. exact (Hrange s d Hd). }
  split; [reflexivity|]. split; [reflexivity|]. split; [|split].
  - intros s e He. unfold parse_date. destruct s; [reflexivity|].
    now rewrite He.
  - intros s d Hs Hd. destruct (Hok s d Hs Hd) as [-> Hge].
    split; [reflexivity|]. split; [exact Hge|].
    destruct (dt_ltb datetime_min (wall d)) eqn:Hlt; [now left|].
    right. now apply dt_ltb_total.
  - intros [[|c r]|]; try apply dt_ltb_irrefl.
    destruct (parsedate_to_datetime E (c :: r)) as [d|e] eqn:Hd.
    + assert (Hs : c :: r <> []) by discriminate.
      destruct (Hok (c :: r) d Hs Hd) as [Heq Hge].
      rewrite Heq. exact Hge.
    + unfold parse_date. rewrite Hd. apply dt_ltb_irrefl.
Qed.

Lemma parse_date_sentinel_least_witness :
  parse_date year_one_env (Some (str "yesterday")) = datetime_min /\
  parse_date year_one_env (Some (str "Tue, 03 Jun 2008 11:05:30 GMT")) =
    mk_datetime 2008 6 3 11 5 30 0 /\
  dt_ltb (parse_date year_one_env (Some (str "Tue, 03 Jun 2008 11:05:30 GMT")))
    datetime_min = false /\
  dt_ltb (parse_date year_one_env (Some year_one_string)) datetime_min = false.
Proof.
  destruct (parse_date_sentinel_least year_one_env year_one_parsedate_in_range)
    as (_ & _ & Hfail & Hok & Hall).
  split.
  - apply (Hfail (str "yesterday") ValueError). vm_compute. reflexivity.
  - destruct (Hok (str "Tue, 03 Jun 2008 11:05:30 GMT")
                (mk_aware (mk_datetime 2008 6 3 11 5 30 0) (Some 0)))
      as (H1 & H2 & _).
    + discriminate.
    + vm_compute. reflexivity.
    + split; [exact H1|]. split; [exact H2 | apply Hall].
Defined.

(** C5 as the claim has it fails: the string below is parsed, and its
    date is [datetime.min] itself, so the sentinel is not strictly
    before the date of every string that is parsed. *)
Lemma parsed_date_equals_sentinel :
  parsedate_to_datetime year_one_env year_one_string =
    Ok (mk_aware (mk_datetime 1 1 1 0 0 0 0) (Some (-74340))) /\
  parse_date year_one_env (Some year_one_string) = datetime_min /\
  dt_ltb datetime_min (parse_date year_one_env (Some year_one_string)) = false.
Proof. repeat split; vm_compute; reflexivity. Qed.

(** C6 (the code departs from the claim).  The claim: a payload that is
    not well-formed XML adds no item and raises nothing.  The handler of
    the loop catches [ET.ParseError] only, while [fetch_feed] and
    [parse_date] catch every exception: on the payload below, which is
    not well formed and on which the parser raises [ValueError], the
    loop body and the run end with that exception. *)
Theorem unparsable_payload_raises :
  fetch_feed shift_jis_env (nth_feed 1) = Some shift_jis_payload /\
  ET_fromstring shift_jis_env shift_jis_payload = Raise ValueError /\
  feed_body shift_jis_env (nth_feed 1) [] = ([], Raise ValueError) /\
  get_news_from shift_jis_env [nth_feed 1] false MAX_ITEMS = Raise ValueError.
Proof. repeat split; vm_compute; reflexivity. Qed.

(** C7 (the code departs from the claim).  The claim: a source whose
    payload is malformed adds nothing and leaves the items of the other
    sources as they are.  With the first source yielding three matching
    items and the second one the payload above, the run over the first
    source alone returns the three items, and the run over all sources
    raises [ValueError]: the three items are lost. *)
Theorem failing_source_aborts_run :
  get_news_from shift_jis_env [nth_feed 0] false MAX_ITEMS =
    Ok [item_linux; item_rust; item_go] /\
  feed_body shift_jis_env (nth_feed 1) [item_rust; item_go; item_linux] =
    ([item_rust; item_go; item_linux], Raise ValueError) /\
  get_news shift_jis_env false MAX_ITEMS = Raise ValueError.
Proof. repeat split; vm_compute; reflexivity. Qed.

(** C8.  For a limit that is not negative, a run that collects
    [all_items] returns the first [limit] items of the ranked list: as
    many as the smaller of [limit] and the length of that list, and the
    whole list when [limit] is at least its length.  The default limit,
    [MAX_ITEMS], is 4; [main] passes it when the option is not given and
    passes the caller's value otherwise. *)
Theorem limit_truncates (E : Env) (shuffle : bool) (limit : Z)
        (all_items : list NewsItem) :
  0 <= limit ->
  for_each (feed_body E) RSS_FEEDS [] = (all_items, Ok tt) ->
  let ranked := rank E shuffle all_items in
  exists out,
    get_news E shuffle limit = Ok out /\
    out = firstn (Z.to_nat limit) ranked /\
    length out = Nat.min (Z.to_nat limit) (length ranked) /\
    Z.of_nat (length out) <= limit /\
    (Z.of_nat (length ranked) <= limit -> out = ranked) /\
    (shuffle = false -> length ranked = length all_items) /\
    MAX_ITEMS = 4 /\
    main_items E shuffle None = get_news E shuffle 4 /\
    main_items E shuffle (Some limit) = get_news E shuffle limit.
Proof.
  intros Hlimit Hrun ranked. exists (firstn (Z.to_nat limit) ranked).
  split.
  { unfold get_news, get_news_from. rewrite Hrun. fold ranked.
    now rewrite slice_to_nonneg. }
  split; [reflexivity|].
  split; [apply length_firstn|].
  split; [rewrite length_firstn; lia|].
  split; [intros Hlen; apply firstn_all2; lia|].
  split.
  { intros ->. subst ranked. unfold rank. symmetry.
    apply Permutation_length, list_sort_perm. }
  repeat split.
Qed.

Lemma limit_truncates_witness :
  0 <= 2 /\
  exists out,
    get_news scenario_env false 2 = Ok out /\
    out = firstn (Z.to_nat 2) (rank scenario_env false [item_rust; item_go; item_linux]) /\
    length out =
      Nat.min (Z.to_nat 2)
        (length (rank scenario_env false [item_rust; item_go; item_linux])) /\
    Z.of_nat (length out) <= 2 /\
    (Z.of_nat (length (rank scenario_env false [item_rust; item_go; item_linux]))
       <= 2 -> out = rank scenario_env false [item_rust; item_go; item_linux]) /\
    (false = false ->
       length (rank scenario_env false [item_rust; item_go; item_linux]) =
       length [item_rust; item_go; item_linux]) /\
    MAX_ITEMS = 4 /\
    main_items scenario_env false None = get_news scenario_env false 4 /\
    main_items scenario_env false (Some 2) = get_news scenario_env false 2.
Proof.
  split; [lia|].
  apply (limit_truncates scenario_env false 2 [item_rust; item_go; item_linux]).
  - lia.
  - vm_compute. reflexivity.
Defined.



(** C10.  The truncation is the slice [all_items[:limit]]: with limit 0
    the run returns the empty list, and with a negative limit it returns
    the ranked list without its last [-limit] items (nothing at all when
    the list is that short).  [main] passes any integer given for the
    option on to [get_news] unchanged. *)
Theorem limit_zero_and_negative (E : Env) (shuffle : bool)
        (all_items : list NewsItem) :
  for_each (feed_body E) RSS_FEEDS [] = (all_items, Ok tt) ->
  let ranked := rank E shuffle all_items in
  get_news E shuffle 0 = Ok [] /\
  (forall limit, limit < 0 ->
     exists out dropped,
       get_news E shuffle limit = Ok out /\
       out = firstn (length ranked - Z.to_nat (- limit)) ranked /\
       ranked = out ++ dropped /\
       length dropped = Nat.min (Z.to_nat (- limit)) (length ranked)) /\
  (forall n, main_items E shuffle (Some n) = get_news E shuffle n).
Proof.
  intros Hrun ranked.
  split; [|split].
  - unfold get_news, get_news_from. rewrite Hrun.
    now rewrite slice_to_nonneg by lia.
  - intros limit Hneg.
    exists (firstn (length ranked - Z.to_nat (- limit)) ranked),
           (skipn (length ranked - Z.to_nat (- limit)) ranked).
    split; [|split; [reflexivity|split]].
    + unfold get_news, get_news_from. rewrite Hrun. fold ranked.
      now rewrite slice_to_neg.
    + symmetry. apply firstn_skipn.
    + rewrite length_skipn. lia.
  - reflexivity.
Qed.

Lemma limit_zero_and_negative_witness :
  get_news scenario_env false 0 = Ok [] /\
  get_news scenario_env false (-1) = Ok [item_linux; item_rust] /\
  get_news scenario_env false (-5) = Ok [] /\
  main_items scenario_env false (Some (-1)) = Ok [item_linux; item_rust].
Proof.
  assert (Hrun : for_each (feed_body scenario_env) RSS_FEEDS [] =
                 ([item_rust; item_go; item_linux], Ok tt))
    by (vm_compute; reflexivity).
  destruct (limit_zero_and_negative scenario_env false _ Hrun)
    as (H0 & Hneg & Hmain).
  split; [exact H0|].
  assert (H1 : get_news scenario_env false (-1) = Ok [item_linux; item_rust]).
  { destruct (Hneg (-1)) as (out & dropped & Hout & -> & _); [lia|].
    rewrite Hout. vm_compute. reflexivity. }
  split; [exact H1|]. split.
  - destruct (Hneg (-5)) as (out & dropped & Hout & -> & _); [lia|].
    rewrite Hout. vm_compute. reflexivity.
  - rewrite Hmain. exact H1.
Defined.

(* ===================================================================== *)
(** ** The loops as functions *)
(* ===================================================================== *)

Lemma item_body_spec (E : Env) (url : text) (item : element)
      (st : list NewsItem) :
  item_body E url item st =
  if item_raises item then (st, Raise AttributeError)
  else (st ++ option_list (build_item E url item), Ok tt).
Proof.
  unfold item_body, item_raises, build_item.
  destruct (find_text item (str "title")) as [[|c t]|];
    try (cbn [option_list]; now rewrite app_nil_r).
  destruct (is_match _).
  - destruct (find_text item (str "link")) as [l|]; reflexivity.
  - cbn [andb option_list].
    destruct (find_text item (str "link")); now rewrite app_nil_r.
Qed.

Lemma for_each_items_ok (E : Env) (url : text) (items : list element)
      (st : list NewsItem) :
  existsb item_raises items = false ->
  for_each (item_body E url) items st =
  (st ++ flat_map (fun item => option_list (build_item E url item)) items,
   Ok tt).
Proof.
  revert st. induction items as [|item items IH]; intros st H.
  - cbn. now rewrite app_nil_r.
  - cbn [existsb] in H. apply orb_false_iff in H as [H1 H2].
    cbn [for_each flat_map]. unfold bind.
    rewrite item_body_spec, H1, (IH _ H2). now rewrite app_assoc.
Qed.

Lemma for_each_items_raise (E : Env) (url : text) (items : list element)
      (st : list NewsItem) :
  existsb item_raises items = true ->
  exists st', for_each (item_body E url) items st = (st', Raise AttributeError).
Proof.
  revert st. induction items as [|item items IH]; intros st H; [discriminate|].
  cbn [existsb] in H. cbn [for_each]. unfold bind. rewrite item_body_spec.
  destruct (item_raises item); [now exists st|].
  apply IH. exact H.
Qed.

Lemma feed_body_ok (E : Env) (url : text) (st : list NewsItem) :
  feed_raises E url = false ->
  feed_body E url st = (st ++ built_items E url, Ok tt).
Proof.
  unfold feed_raises, feed_body, built_items, channel_items.
  destruct (fetch_feed E url) as [[|b data]|];
    try (intros _; cbn; now rewrite app_nil_r).
  unfold except_ParseError, bind, call.
  destruct (ET_fromstring E (b :: data)) as [root|e].
  - destruct (find (str "channel") root) as [channel|].
    + intros H. now rewrite for_each_items_ok.
    + intros _. cbn. now rewrite app_nil_r.
  - destruct e; try discriminate. intros _. cbn. now rewrite app_nil_r.
Qed.

Lemma feed_body_raise (E : Env) (url : text) (st : list NewsItem) :
  feed_raises E url = true ->
  exists st' e, feed_body E url st = (st', Raise e) /\ e <> ParseError /\
                raise_cause E url e.
Proof.
  unfold feed_raises, feed_body, raise_cause, channel_items.
  destruct (fetch_feed E url) as [[|b data]|]; try discriminate.
  unfold except_ParseError, bind, call.
  destruct (ET_fromstring E (b :: data)) as [root|e] eqn:Hx.
  - destruct (find (str "channel") root) as [channel|]; [|discriminate].
    intros H.
    destruct (for_each_items_raise E url _ st H) as [st' Hst'].
    exists st', AttributeError. rewrite Hst'.
    split; [reflexivity|]. split; [discriminate|]. right.
    split; [reflexivity|]. apply existsb_exists in H. exact H.
  - intros H. exists st, e.
    split; [destruct e; try reflexivity; discriminate|].
    split; [destruct e; discriminate|].
    left. exists (b :: data). auto.
Qed.

Lemma run_ok (E : Env) (feeds : list text) (st : list NewsItem) :
  existsb (feed_raises E) feeds = false ->
  for_each (feed_body E) feeds st =
  (st ++ flat_map (built_items E) feeds, Ok tt).
Proof.
  revert st. induction feeds as [|url feeds IH]; intros st H.
  - cbn. now rewrite app_nil_r.
  - cbn [existsb] in H. apply orb_false_iff in H as [H1 H2].
    cbn [for_each flat_map]. unfold bind.
    rewrite (feed_body_ok E url st H1), (IH _ H2). now rewrite app_assoc.
Qed.

Lemma run_raise (E : Env) (feeds : list text) (st : list NewsItem) :
  existsb (feed_raises E) feeds = true ->
  exists st' e url,
    for_each (feed_body E) feeds st = (st', Raise e) /\ e <> ParseError /\
    In url feeds /\ raise_cause E url e.
Proof.
  revert st. induction feeds as [|url feeds IH]; intros st H; [discriminate|].
  cbn [existsb] in H. cbn [for_each]. unfold bind.
  destruct (feed_raises E url) eqn:Hu.
  - destruct (feed_body_raise E url st Hu) as (st' & e & Hf & He & Hc).
    exists st', e, url. rewrite Hf. repeat split; auto. now left.
  - rewrite (feed_body_ok E url st Hu).
    destruct (IH (st ++ built_items E url) H) as (st' & e & u & Hf & He & Hin & Hc).
    exists st', e, u. repeat split; auto. now right.
Qed.

Lemma run_result (E : Env) (feeds : list text) (all_items : list NewsItem) :
  for_each (feed_body E) feeds [] = (all_items, Ok tt) ->
  existsb (feed_raises E) feeds = false /\
  all_items = flat_map (built_items E) feeds.
Proof.
  intros Hrun. destruct (existsb (feed_raises E) feeds) eqn:H.
  - destruct (run_raise E feeds [] H) as (st' & e & u & Hf & _).
    rewrite Hf in Hrun. discriminate.
  - split; [reflexivity|]. rewrite (run_ok E feeds [] H) in Hrun.
    now injection Hrun as <-.
Qed.

Lemma In_built_items (E : Env) (url : text) (n : NewsItem) :
  In n (built_items E url) <->
  exists item, In item (channel_items E url) /\ build_item E url item = Some n.
Proof.
  unfold built_items. rewrite in_flat_map.
  split; intros (item & Hin & H); exists item; (split; [exact Hin|]).
  - destruct (build_item E url item) as [m|]; cbn in H; [|tauto].
    destruct H as [->|[]]. reflexivity.
  - rewrite H. now left.
Qed.

(** What [build_item] says of the item it returns. *)
Lemma build_item_some (E : Env) (url : text) (item : element) (n : NewsItem) :
  build_item E url item = Some n ->
  exists raw_title raw_link,
    find_text item (str "title") = Some raw_title /\ raw_title <> [] /\
    find_text item (str "link") = Some raw_link /\
    is_match (combined_text raw_title (find_text item (str "description")))
      = true /\
    n = {| title := strip raw_title;
           link := strip raw_link;
           desc := item_desc E (find_text item (str "description"));
           date := parse_date E (find_text item (str "pubDate"));
           source := url |}.
Proof.
  unfold build_item.
  destruct (find_text item (str "title")) as [[|c t]|]; try discriminate.
  destruct (find_text item (str "link")) as [l|]; [|discriminate].
  destruct (is_match _) eqn:Hm; [|discriminate].
  intros [= <-]. exists (c :: t), l. repeat split; auto. discriminate.
Qed.

Lemma In_firstn {A : Type} (n : nat) (l : list A) (x : A) :
  In x (firstn n l) -> In x l.
Proof.
  intros H. rewrite <- (firstn_skipn n l). apply in_or_app. now left.
Qed.

Lemma slice_to_firstn {A : Type} (l : list A) (stop : Z) :
  exists k, slice_to l stop = firstn k l.
Proof. unfold slice_to. eexists. reflexivity. Qed.

Lemma rank_perm (E : Env) (shuffle : bool) (l : list NewsItem) :
  (shuffle = true -> shuffle_permutes E) ->
  Permutation l (rank E shuffle l).
Proof.
  intros H. unfold rank. destruct shuffle.
  - apply H. reflexivity.
  - apply list_sort_perm.
Qed.

(** Every item of the output was built from an element of a feed. *)
Lemma output_built (E : Env) (feeds : list text) (shuffle : bool) (limit : Z)
      (out : list NewsItem) :
  (shuffle = true -> shuffle_permutes E) ->
  get_news_from E feeds shuffle limit = Ok out ->
  forall n, In n out ->
    exists url item, In url feeds /\ In item (channel_items E url) /\
                     build_item E url item = Some n.
Proof.
  intros Hs Hout n Hn. unfold get_news_from in Hout.
  destruct (for_each (feed_body E) feeds []) as [all_items [[]|e]] eqn:Hrun;
    [|discriminate].
  injection Hout as <-.
  destruct (slice_to_firstn (rank E shuffle all_items) limit) as [k Hk].
  rewrite Hk in Hn. apply In_firstn in Hn.
  apply (Permutation_in _ (Permutation_sym (rank_perm E shuffle all_items Hs)))
    in Hn.
  destruct (run_result E feeds all_items Hrun) as [_ ->].
  apply in_flat_map in Hn as (url & Hurl & Hn).
  apply In_built_items in Hn as (item & Hitem & Hb).
  now exists url, item.
Qed.

Lemma rev_permutes (E : Env) :
  random_shuffle E = @rev NewsItem -> shuffle_permutes E.
Proof. intros H l. rewrite H. apply Permutation_rev. Qed.

(* ===================================================================== *)
(** ** Further properties *)
(* ===================================================================== *)

(** X1.  When the loops of [get_news] end normally, [all_items] is the
    concatenation, feed by feed in the order of the list and item by item
    in document order, of the news items built from the elements that
    have a non-empty title, match a keyword and have a link text.  So an
    item is collected exactly when some element of some feed gives it. *)
Theorem collection_is_concatenation (E : Env) (feeds : list text)
        (all_items : list NewsItem) :
  for_each (feed_body E) feeds [] = (all_items, Ok tt) ->
  all_items = flat_map (built_items E) feeds /\
  (forall n, In n all_items <->
     exists url item, In url feeds /\ In item (channel_items E url) /\
                      build_item E url item = Some n).
Proof.
  intros Hrun. destruct (run_result E feeds all_items Hrun) as [_ ->].
  split; [reflexivity|]. intros n. rewrite in_flat_map. split.
  - intros (url & Hurl & Hn). apply In_built_items in Hn as (item & Hi & Hb).
    now exists url, item.
  - intros (url & item & Hurl & Hi & Hb). exists url. split; [exact Hurl|].
    apply In_built_items. now exists item.
Qed.

Lemma collection_is_concatenation_witness :
  [item_rust; item_go; item_linux] = flat_map (built_items scenario_env) RSS_FEEDS.
Proof.
  apply (collection_is_concatenation scenario_env RSS_FEEDS
           [item_rust; item_go; item_linux]).
  vm_compute. reflexivity.
Defined.

(** X2.  If some feed makes the parser raise an exception other than
    [ParseError], or holds an accepted item whose [link] element has no
    text, [get_news] returns no list: it raises, the items of the other
    feeds are lost, and the exception is not [ParseError]. *)
Theorem raising_feed_aborts_run (E : Env) (feeds : list text) (shuffle : bool)
        (limit : Z) :
  existsb (feed_raises E) feeds = true ->
  exists e, get_news_from E feeds shuffle limit = Raise e /\ e <> ParseError.
Proof.
  intros H. destruct (run_raise E feeds [] H) as (st' & e & u & Hf & Hne & _).
  exists e. unfold get_news_from. rewrite Hf. auto.
Qed.

Lemma raising_feed_aborts_run_witness :
  (exists e, get_news_from nolink_env RSS_FEEDS false MAX_ITEMS = Raise e /\
             e <> ParseError) /\
  (exists e, get_news_from shift_jis_env RSS_FEEDS false MAX_ITEMS = Raise e /\
             e <> ParseError).
Proof.
  split.
  - apply (raising_feed_aborts_run nolink_env RSS_FEEDS false MAX_ITEMS).
    vm_compute. reflexivity.
  - apply (raising_feed_aborts_run shift_jis_env RSS_FEEDS false MAX_ITEMS).
    vm_compute. reflexivity.
Defined.

(** X3.  Every item of the output comes from an [item] element of a
    feed of the list: its source is that feed, its title is the trimmed
    title of the element, which is a non-empty string, and the element
    matches a keyword.  (In shuffle mode this assumes that
    [random.shuffle] reorders the list.) *)
Theorem output_items_match (E : Env) (feeds : list text) (shuffle : bool)
        (limit : Z) (out : list NewsItem) :
  (shuffle = true -> shuffle_permutes E) ->
  get_news_from E feeds shuffle limit = Ok out ->
  forall n, In n out ->
    exists item raw_title,
      In (source n) feeds /\
      In item (channel_items E (source n)) /\
      find_text item (str "title") = Some raw_title /\ raw_title <> [] /\
      title n = strip raw_title /\
      is_match (combined_text raw_title (find_text item (str "description")))
        = true.
Proof.
  intros Hs Hout n Hn.
  destruct (output_built E feeds shuffle limit out Hs Hout n Hn)
    as (url & item & Hurl & Hitem & Hb).
  destruct (build_item_some E url item n Hb)
    as (rt & rl & Ht & Hne & _ & Hm & ->).
  exists item, rt. cbn [source title]. repeat split; auto.
Qed.

Lemma output_items_match_witness :
  exists item raw_title,
    In (source item_rust) RSS_FEEDS /\
    In item (channel_items scenario_env (source item_rust)) /\
    find_text item (str "title") = Some raw_title /\ raw_title <> [] /\
    title item_rust = strip raw_title /\
    is_match (combined_text raw_title (find_text item (str "description")))
      = true.
Proof.
  apply (output_items_match scenario_env RSS_FEEDS true MAX_ITEMS
           [item_linux; item_go; item_rust]).
  - intros _. now apply rev_permutes.
  - vm_compute. reflexivity.
  - right. right. left. reflexivity.
Defined.

Lemma strip_trimmed (s : text) : trimmed (strip s).
Proof.
  unfold trimmed, strip. split; intros c Hc.
  - destruct (lstrip_head s) as [H | (x & r & H & Hx)]; rewrite H in Hc.
    + discriminate.
    + rewrite (rstrip_cons_nonspace x r Hx) in Hc. cbn in Hc. congruence.
  - unfold rstrip in Hc. rewrite rev_involutive in Hc.
    destruct (lstrip_head (rev (lstrip s))) as [H | (x & r & H & Hx)];
      rewrite H in Hc; [discriminate|].
    cbn in Hc. congruence.
Qed.

Lemma item_desc_length (E : Env) (v : option text) :
  (3 <= length (item_desc E v) <= 203)%nat.
Proof.
  unfold item_desc. destruct (truthy v).
  - rewrite length_app, length_firstn. cbn [length str list_ascii_of_string]. lia.
  - cbn. lia.
Qed.

(** X4.  The titles and the links of the output have no whitespace at
    either end. *)
Theorem output_titles_links_trimmed (E : Env) (feeds : list text)
        (shuffle : bool) (limit : Z) (out : list NewsItem) :
  (shuffle = true -> shuffle_permutes E) ->
  get_news_from E feeds shuffle limit = Ok out ->
  forall n, In n out -> trimmed (title n) /\ trimmed (link n).
Proof.
  intros Hs Hout n Hn.
  destruct (output_built E feeds shuffle limit out Hs Hout n Hn)
    as (url & item & _ & _ & Hb).
  destruct (build_item_some E url item n Hb) as (rt & rl & _ & _ & _ & _ & ->).
  cbn [title link]. split; apply strip_trimmed.
Qed.

Lemma output_titles_links_trimmed_witness :
  trimmed (title item_rust) /\ trimmed (link item_rust).
Proof.
  apply (output_titles_links_trimmed scenario_env RSS_FEEDS false MAX_ITEMS
           [item_linux; item_rust; item_go]).
  - discriminate.
  - vm_compute. reflexivity.
  - right. left. reflexivity.
Defined.

(** X5.  A description of the output has at least 3 and at most 203
    characters, whatever the feed sent. *)
Theorem output_description_length (E : Env) (feeds : list text)
        (shuffle : bool) (limit : Z) (out : list NewsItem) :
  (shuffle = true -> shuffle_permutes E) ->
  get_news_from E feeds shuffle limit = Ok out ->
  forall n, In n out -> (3 <= length (desc n) <= 203)%nat.
Proof.
  intros Hs Hout n Hn.
  destruct (output_built E feeds shuffle limit out Hs Hout n Hn)
    as (url & item & _ & _ & Hb).
  destruct (build_item_some E url item n Hb) as (rt & rl & _ & _ & _ & _ & ->).
  cbn [desc]. apply item_desc_length.
Qed.

Lemma output_description_length_witness :
  (3 <= length (desc item_go) <= 203)%nat.
Proof.
  apply (output_description_length scenario_env RSS_FEEDS false MAX_ITEMS
           [item_linux; item_rust; item_go]).
  - discriminate.
  - vm_compute. reflexivity.
  - right. right. left. reflexivity.
Defined.

(** X6.  Whatever the limit, negative ones included, the output holds
    only collected items, none more often than it was collected, and
    never more of them than were collected; with a limit of at least
    their number it is a reordering of all of them. *)
Theorem output_within_collected (E : Env) (feeds : list text)
        (shuffle : bool) (limit : Z) (all_items out : list NewsItem) :
  (shuffle = true -> shuffle_permutes E) ->
  for_each (feed_body E) feeds [] = (all_items, Ok tt) ->
  get_news_from E feeds shuffle limit = Ok out ->
  (exists rest, Permutation all_items (out ++ rest)) /\
  (length out <= length all_items)%nat /\
  (Z.of_nat (length all_items) <= limit -> Permutation all_items out).
Proof.
  intros Hs Hrun Hout. unfold get_news_from in Hout. rewrite Hrun in Hout.
  injection Hout as <-.
  pose proof (rank_perm E shuffle all_items Hs) as Hp.
  destruct (slice_to_firstn (rank E shuffle all_items) limit) as [k Hk].
  split; [|split].
  - exists (skipn k (rank E shuffle all_items)).
    rewrite Hk, firstn_skipn. exact Hp.
  - rewrite Hk, length_firstn, (Permutation_length Hp). lia.
  - intros Hl. rewrite slice_to_nonneg by lia.
    rewrite firstn_all2; [exact Hp|].
    rewrite <- (Permutation_length Hp). lia.
Qed.

Lemma output_within_collected_witness :
  (exists rest,
     Permutation [item_rust; item_go; item_linux] ([item_linux; item_go] ++ rest)) /\
  (length [item_linux; item_go] <= length [item_rust; item_go; item_linux])%nat /\
  (Z.of_nat (length [item_rust; item_go; item_linux]) <= 2 ->
   Permutation [item_rust; item_go; item_linux] [item_linux; item_go]).
Proof.
  apply (output_within_collected scenario_env RSS_FEEDS true 2).
  - intros _. now apply rev_permutes.
  - vm_compute. reflexivity.
  - vm_compute. reflexivity.
Defined.

(** X7.  In date mode a larger limit only adds items at the end: the
    output for a limit is the beginning of the output for any larger
    one. *)
Theorem larger_limit_extends (E : Env) (feeds : list text) (a b : Z)
        (out_a out_b : list NewsItem) :
  0 <= a <= b ->
  get_news_from E feeds false a = Ok out_a ->
  get_news_from E feeds false b = Ok out_b ->
  out_a = firstn (Z.to_nat a) out_b.
Proof.
  intros Hab Ha Hb. unfold get_news_from in *.
  destruct (for_each (feed_body E) feeds []) as [all_items [[]|e]];
    [|discriminate].
  injection Ha as <-. injection Hb as <-.
  rewrite !slice_to_nonneg by lia. rewrite firstn_firstn.
  f_equal. lia.
Qed.

Lemma larger_limit_extends_witness :
  [item_linux] = firstn (Z.to_nat 1) [item_linux; item_rust; item_go].
Proof.
  apply (larger_limit_extends scenario_env RSS_FEEDS 1 3).
  - lia.
  - vm_compute. reflexivity.
  - vm_compute. reflexivity.
Defined.

Lemma sorted_list_sort_id {A K : Type} (key : A -> K) (lt : K -> K -> bool)
      (reverse : bool) (l : list A) :
  StronglySorted (in_order key lt reverse) l ->
  list_sort key lt reverse l = l.
Proof.
  induction 1 as [|x l Hs IH Hx]; [reflexivity|].
  cbn [list_sort]. rewrite IH. destruct l as [|y l']; [reflexivity|].
  cbn [insert]. inversion Hx as [|? ? Hxy _]; subst.
  unfold in_order in Hxy. now rewrite Hxy.
Qed.

(** X8.  Date mode leaves a list as it is exactly when the list is
    already in order, no item standing before one with a later date; so
    ranking a ranked list changes nothing. *)
Theorem rank_fixes_sorted (E : Env) (l : list NewsItem) :
  (rank E false l = l <->
   StronglySorted (fun a b => dt_ltb (date a) (date b) = false) l) /\
  rank E false (rank E false l) = rank E false l.
Proof.
  pose proof (list_sort_sorted date dt_ltb dt_ltb_asym dt_ltb_negtrans true)
    as Hsorted.
  unfold rank. split; [split|].
  - intros H. rewrite <- H. apply Hsorted.
  - intros H. now apply sorted_list_sort_id.
  - apply sorted_list_sort_id, Hsorted.
Qed.

Lemma sorted_perm_eq {A : Type} (R : A -> A -> Prop) (l1 : list A) :
  forall l2,
  StronglySorted R l1 -> StronglySorted R l2 -> Permutation l1 l2 ->
  (forall a b, In a l1 -> In b l1 -> R a b -> R b a -> a = b) ->
  l1 = l2.
Proof.
  induction l1 as [|x l1 IH]; intros l2 H1 H2 Hp Hanti.
  - apply Permutation_nil in Hp. now subst.
  - destruct l2 as [|y l2].
    { apply Permutation_sym, Permutation_nil in Hp. discriminate. }
    inversion H1 as [|? ? Hs1 Hx]; subst.
    inversion H2 as [|? ? Hs2 Hy]; subst.
    assert (Hxy : x = y).
    { assert (Hx2 : In x (y :: l2))
        by (apply (Permutation_in _ Hp); now left).
      assert (Hy1 : In y (x :: l1))
        by (apply (Permutation_in _ (Permutation_sym Hp)); now left).
      destruct Hx2 as [->|Hx2]; [reflexivity|].
      destruct Hy1 as [->|Hy1]; [reflexivity|].
      apply Hanti; [now left | now right | |].
      - exact (proj1 (Forall_forall _ _) Hx y Hy1).
      - exact (proj1 (Forall_forall _ _) Hy x Hx2). }
    subst y. f_equal. apply IH; auto.
    + now apply Permutation_cons_inv in Hp.
    + intros a b Ha Hb. apply Hanti; now right.
Qed.

Lemma NoDup_map_inj {A B : Type} (f : A -> B) (l : list A) (a b : A) :
  NoDup (map f l) -> In a l -> In b l -> f a = f b -> a = b.
Proof.
  induction l as [|x l IH]; intros Hnd Ha Hb Hf; [destruct Ha|].
  cbn in Hnd. inversion Hnd as [|? ? Hnotin Hnd']; subst.
  destruct Ha as [->|Ha], Hb as [->|Hb]; auto.
  - exfalso. apply Hnotin. rewrite Hf. now apply in_map.
  - exfalso. apply Hnotin. rewrite <- Hf. now apply in_map.
Qed.

Lemma rank_order_independent (E : Env) (l l' : list NewsItem) :
  Permutation l l' -> NoDup (map date l) ->
  rank E false l = rank E false l'.
Proof.
  intros Hp Hnd. unfold rank.
  pose proof (list_sort_sorted date dt_ltb dt_ltb_asym dt_ltb_negtrans true)
    as Hsorted.
  pose proof (list_sort_perm date dt_ltb true) as Hperm.
  apply (sorted_perm_eq (in_order date dt_ltb true)); try apply Hsorted.
  - rewrite <- (Hperm l), <- (Hperm l'). exact Hp.
  - intros a b Ha Hb Hab Hba.
    apply (Permutation_in _ (Permutation_sym (Hperm l))) in Ha, Hb.
    apply (NoDup_map_inj date l a b Hnd Ha Hb).
    unfold in_order, comes_first in Hab, Hba. now apply dt_ltb_total.
Qed.

Lemma existsb_perm {A : Type} (f : A -> bool) (l l' : list A) :
  Permutation l l' -> existsb f l = existsb f l'.
Proof.
  intros Hp. destruct (existsb f l') eqn:H'.
  - apply existsb_exists in H' as (x & Hin & Hx). apply existsb_exists.
    exists x. split; [|exact Hx].
    now apply (Permutation_in _ (Permutation_sym Hp)).
  - destruct (existsb f l) eqn:H; [|reflexivity].
    apply existsb_exists in H as (x & Hin & Hx).
    assert (existsb f l' = true)
      by (apply existsb_exists; exists x; split;
          [now apply (Permutation_in _ Hp) | exact Hx]).
    congruence.
Qed.

(** X9.  When the collected items have pairwise different dates, the
    order in which the feeds are visited does not matter in date mode:
    a run over the same feeds in another order gives the same output. *)
Theorem feed_order_irrelevant (E : Env) (feeds feeds' : list text)
        (limit : Z) (all_items : list NewsItem) :
  Permutation feeds feeds' ->
  for_each (feed_body E) feeds [] = (all_items, Ok tt) ->
  NoDup (map date all_items) ->
  get_news_from E feeds' false limit = get_news_from E feeds false limit.
Proof.
  intros Hp Hrun Hnd.
  destruct (run_result E feeds all_items Hrun) as [Hok Hall].
  unfold get_news_from. rewrite Hrun.
  rewrite (run_ok E feeds' []) by (now rewrite <- (existsb_perm _ _ _ Hp)).
  cbn [app]. do 2 f_equal. symmetry. apply rank_order_independent.
  - rewrite Hall. now apply Permutation_flat_map.
  - exact Hnd.
Qed.

Lemma feed_order_irrelevant_witness :
  for_each (feed_body two_feeds_env) RSS_FEEDS [] =
    ([item_rust; item_go; item_linux; item_python], Ok tt) /\
  for_each (feed_body two_feeds_env) (rev RSS_FEEDS) [] =
    ([item_python; item_rust; item_go; item_linux], Ok tt) /\
  get_news_from two_feeds_env (rev RSS_FEEDS) false MAX_ITEMS =
  get_news_from two_feeds_env RSS_FEEDS false MAX_ITEMS.
Proof.
  assert (Hrun : for_each (feed_body two_feeds_env) RSS_FEEDS [] =
                 ([item_rust; item_go; item_linux; item_python], Ok tt))
    by (vm_compute; reflexivity).
  split; [exact Hrun|]. split; [vm_compute; reflexivity|].
  apply (feed_order_irrelevant two_feeds_env RSS_FEEDS (rev RSS_FEEDS)
           MAX_ITEMS [item_rust; item_go; item_linux; item_python]).
  - apply Permutation_rev.
  - exact Hrun.
  - repeat constructor; cbn; intuition discriminate.
Defined.

(** *** The tag substitution *)

Lemma lazy_to_gt_sub_none (r : text) :
  lazy_to_gt r = None -> lazy_to_gt (sub_tags r) = None.
Proof.
  induction r as [|x r IH]; intros H; simp sub_tags.
  cbn [lazy_to_gt] in H.
  destruct (Ascii.eqb x (ch ">")) eqn:Hgt; [discriminate|].
  destruct (tag_match (x :: r)) as [n|] eqn:Hm; cbn [sub_tags_unfold_clause_2].
  - exfalso. cbn [tag_match] in Hm.
    destruct (Ascii.eqb x (ch "<")) eqn:Hlt; [|discriminate].
    apply Ascii.eqb_eq in Hlt. subst x.
    change (Ascii.eqb (ch "<") newline) with false in H.
    destruct (lazy_to_gt r); discriminate.
  - cbn [lazy_to_gt]. rewrite Hgt.
    destruct (Ascii.eqb x newline); [reflexivity|].
    destruct (lazy_to_gt r); [discriminate|]. now rewrite IH.
Qed.

Lemma tag_match_sub_none (c : ascii) (r : text) :
  tag_match (c :: r) = None -> tag_match (c :: sub_tags r) = None.
Proof.
  cbn [tag_match]. destruct (Ascii.eqb c (ch "<")); [|reflexivity].
  destruct (lazy_to_gt r) eqn:Hl; [discriminate|].
  intros _. now rewrite lazy_to_gt_sub_none.
Qed.

Lemma sub_tags_length (s : text) : (length (sub_tags s) <= length s)%nat.
Proof.
  funelim (sub_tags s); cbn [length].
  - lia.
  - match goal with
    | IH : (length (sub_tags ?t) <= length ?t)%nat |- _ =>
        rewrite length_skipn in IH
    end. lia.
  - match goal with
    | IH : (length (sub_tags ?t) <= length ?t)%nat |- _ => lia
    end.
Qed.

Lemma has_tag_sub_tags (s : text) : has_tag (sub_tags s) = false.
Proof.
  funelim (sub_tags s).
  - reflexivity.
  - assumption.
  - cbn [has_tag].
    match goal with
    | Hm : tag_match (c :: r) = None |- _ =>
        rewrite (tag_match_sub_none c r Hm)
    end. assumption.
Qed.

Lemma has_tag_shrinks (s : text) :
  has_tag s = true -> (length (sub_tags s) < length s)%nat.
Proof.
  induction s as [|c r IH]; [discriminate|].
  cbn [has_tag]. simp sub_tags.
  destruct (tag_match (c :: r)) as [n|] eqn:Hm; cbn; intros H.
  - pose proof (sub_tags_length (skipn (pred n) r)) as Hle.
    rewrite length_skipn in Hle. lia.
  - specialize (IH H). lia.
Qed.

(** X10.  Deleting the tags deletes them for good: in the result the tag
    pattern matches nowhere, so a second pass changes nothing; the
    result is never longer than the text, and equals it exactly when the
    pattern matched nowhere in the first place. *)
Theorem sub_tags_removes_all (s : text) :
  has_tag (sub_tags s) = false /\
  sub_tags (sub_tags s) = sub_tags s /\
  (length (sub_tags s) <= length s)%nat /\
  (sub_tags s = s <-> has_tag s = false).
Proof.
  split; [apply has_tag_sub_tags|].
  split; [apply sub_tags_no_tag, has_tag_sub_tags|].
  split; [apply sub_tags_length|].
  split; [|apply sub_tags_no_tag].
  intros H. destruct (has_tag s) eqn:Ht; [|reflexivity].
  apply has_tag_shrinks in Ht. rewrite H in Ht. lia.
Qed.

(** *** The keyword filter *)

Lemma combined_text_eq (t : text) (d : option text) :
  combined_text t d =
  lower t ++ str " " ++ match d with Some d => lower d | None => [] end.
Proof. unfold combined_text. destruct d as [[|c r]|]; reflexivity. Qed.

Lemma last_char_nonempty (p q : option ascii) (s : text) :
  s <> [] -> last_char p s = last_char q s.
Proof. destruct s; [congruence | reflexivity]. Qed.

Lemma occurs_as_word_left (k a b : text) :
  occurs_as_word k a -> occurs_as_word k (a ++ str " " ++ b).
Proof.
  intros (pre & post & -> & H1 & H2).
  exists pre, (post ++ str " " ++ b).
  split; [now rewrite <- !app_assoc|]. split; [exact H1|].
  destruct post; [reflexivity | exact H2].
Qed.

Lemma occurs_as_word_right (k a b : text) :
  occurs_as_word k b -> occurs_as_word k (a ++ str " " ++ b).
Proof.
  intros (pre & post & -> & H1 & H2).
  exists (a ++ str " " ++ pre), post.
  split; [now rewrite <- !app_assoc|]. split; [|exact H2].
  rewrite app_assoc, last_char_app.
  destruct pre as [|c pre].
  - cbn [last_char fold_left]. rewrite last_char_app. reflexivity.
  - rewrite (last_char_nonempty _ None) by discriminate. exact H1.
Qed.

(** X11.  A keyword that the test finds in the lowercased title alone,
    or in the lowercased description alone, is found in the combined
    text: joining the two with a space loses no match. *)
Theorem match_in_title_or_description (title d : text) :
  is_match (lower title) = true \/ is_match (lower d) = true ->
  is_match (combined_text title (Some d)) = true.
Proof.
  rewrite combined_text_eq, !is_match_iff.
  intros [(k & Hk & H) | (k & Hk & H)]; exists k; (split; [exact Hk|]).
  - now apply occurs_as_word_left.
  - now apply occurs_as_word_right.
Qed.

Lemma match_in_title_or_description_witness :
  is_match (combined_text (str "Weekly notes") (Some (str "Now with RUST."))) = true.
Proof.
  apply match_in_title_or_description. right. vm_compute. reflexivity.
Defined.

Lemma lower_char_idem (c : ascii) : lower_char (lower_char c) = lower_char c.
Proof. destruct c as [[] [] [] [] [] [] [] []]; reflexivity. Qed.

Lemma lower_idem (s : text) : lower (lower s) = lower s.
Proof.
  unfold lower. rewrite map_map. apply map_ext. apply lower_char_idem.
Qed.

(** X12.  The filter does not see letter case: titles, and descriptions,
    that lowercase to the same text get the same verdict; in particular
    an item and its lowercased form do. *)
Theorem filter_ignores_case (t t' d d' : text) :
  lower t = lower t' -> lower d = lower d' ->
  is_match (combined_text t (Some d)) = is_match (combined_text t' (Some d')) /\
  is_match (combined_text (lower t) (Some (lower d))) =
    is_match (combined_text t (Some d)).
Proof.
  intros Ht Hd. rewrite !combined_text_eq, !lower_idem, Ht, Hd. auto.
Qed.

Lemma filter_ignores_case_witness :
  is_match (combined_text (str "RUST in the Linux KERNEL") (Some (str "Now")))
  = is_match (combined_text (str "rust in the linux kernel") (Some (str "now"))).
Proof.
  apply (filter_ignores_case (str "RUST in the Linux KERNEL")
           (str "rust in the linux kernel") (str "Now") (str "now"));
    vm_compute; reflexivity.
Defined.

(** *** The spinner *)

Lemma code_esc (c : ascii) : (code c =? 27) = true -> c = ESC.
Proof.
  intros H. destruct c as [[] [] [] [] [] [] [] []];
    vm_compute in H; try discriminate; reflexivity.
Qed.

Lemma ansi_match_plain (c : ascii) (r : text) :
  c <> ESC -> ansi_match (c :: r) = None.
Proof.
  intros Hc. unfold ansi_match. destruct r as [|x r]; [reflexivity|].
  destruct (code c =? 27) eqn:H; [|reflexivity].
  apply code_esc in H. contradiction.
Qed.

Lemma sub_ansi_app_plain (s t : text) :
  ~ In ESC s -> sub_ansi (s ++ t) = s ++ sub_ansi t.
Proof.
  induction s as [|c s IH]; intros H; [reflexivity|].
  cbn [app]. simp sub_ansi.
  rewrite ansi_match_plain by (intros ->; apply H; now left).
  cbn [sub_ansi_unfold_clause_2]. rewrite IH; [reflexivity|].
  intros Hin. apply H. now right.
Qed.

Lemma span_app (p : ascii -> bool) (l : text) (m : ascii) (rest : text) :
  forallb p l = true -> p m = false ->
  span p (l ++ m :: rest) = length l.
Proof.
  intros Hl Hm. induction l as [|c l IH]; cbn [app span length].
  - now rewrite Hm.
  - cbn [forallb] in Hl. apply andb_true_iff in Hl as [Hc Hl].
    rewrite Hc. now rewrite IH.
Qed.

Lemma skipn_length_app {A : Type} (l rest : list A) :
  skipn (length l) (l ++ rest) = rest.
Proof. induction l as [|c l IH]; [reflexivity | exact IH]. Qed.

Lemma ansi_match_sgr (p rest : text) :
  forallb (in_range 48 63) p = true ->
  ansi_match (sgr p ++ rest) = Some (3 + length p)%nat.
Proof.
  intros Hp. unfold sgr. cbn [app]. rewrite <- app_assoc. cbn [app].
  unfold ansi_match.
  change (code ESC =? 27) with true.
  change (in_range 64 90 (ch "[") || in_range 92 95 (ch "[")) with false.
  change (code (ch "[") =? 91) with true. cbv iota.
  rewrite (span_app _ p (ch "m") rest Hp eq_refl).
  rewrite skipn_length_app.
  change (span (in_range 32 47) (ch "m" :: rest)) with 0%nat.
  cbn [skipn]. change (in_range 64 126 (ch "m")) with true. cbv iota.
  f_equal. lia.
Qed.

Lemma sub_ansi_sgr (p rest : text) :
  forallb (in_range 48 63) p = true ->
  sub_ansi (sgr p ++ rest) = sub_ansi rest.
Proof.
  intros Hp. pose proof (ansi_match_sgr p rest Hp) as Hm.
  unfold sgr in *. cbn [app] in *. simp sub_ansi. rewrite Hm.
  cbn [sub_ansi_unfold_clause_2].
  change (Nat.pred (3 + length p)) with (S (S (length p))).
  rewrite skipn_cons.
  replace (S (length p)) with (length (p ++ [ch "m"]))
    by (rewrite length_app; cbn; lia).
  now rewrite skipn_length_app.
Qed.

(** X13.  [message_len] is the number of characters that show: for a
    message that is a text without escape character between two colour
    codes of [Colors], the pattern of [__init__] deletes the two codes
    and nothing else. *)
Theorem message_len_visible (p q s : text) :
  forallb (in_range 48 63) p = true ->
  forallb (in_range 48 63) q = true ->
  ~ In ESC s ->
  sub_ansi (sgr p ++ s ++ sgr q) = s /\
  message_len (Spinner_init (sgr p ++ s ++ sgr q)) = length s.
Proof.
  intros Hp Hq Hs.
  assert (H : sub_ansi (sgr p ++ s ++ sgr q) = s).
  { rewrite (sub_ansi_sgr p _ Hp), (sub_ansi_app_plain s _ Hs).
    rewrite <- (app_nil_r (sgr q)), (sub_ansi_sgr q [] Hq).
    simp sub_ansi. apply app_nil_r. }
  split; [exact H|]. cbn [Spinner_init message_len]. now rewrite H.
Qed.

Lemma message_len_visible_witness :
  sub_ansi (CYAN ++ str "Fetching news feeds..." ++ ENDC) =
    str "Fetching news feeds..." /\
  message_len (Spinner_init (CYAN ++ str "Fetching news feeds..." ++ ENDC)) = 22%nat.
Proof.
  apply (message_len_visible (str "96") (str "0") (str "Fetching news feeds...")).
  - vm_compute. reflexivity.
  - vm_compute. reflexivity.
  - vm_compute. intros H.
    repeat (destruct H as [H|H]; [discriminate|]). exact H.
Defined.

Lemma write_next_iter (n : nat) :
  forall (sp : Spinner) (out : text),
    spinner_visible sp = true ->
    do_calls (repeat call_write_next n) (sp, out) =
    ({| spinner := spinner sp + n;
        busy := busy sp;
        spinner_visible := true;
        message := message sp;
        message_len := message_len sp |},
     out ++ animation (spinner sp) n).
Proof.
  induction n as [|n IH]; intros sp out Hv.
  - cbn. rewrite Nat.add_0_r, app_nil_r. destruct sp. cbn in *. now subst.
  - change (repeat call_write_next (S n))
      with (call_write_next :: repeat call_write_next n).
    unfold do_calls in *. cbn [fold_left do_call]. unfold write_next at 1.
    rewrite Hv. rewrite IH by reflexivity. cbn [spinner busy message message_len].
    f_equal; [f_equal; lia|].
    unfold animation, next_frame. cbn [seq flat_map].
    now rewrite <- !app_assoc.
Qed.

(** X14.  A spinner that is drawn [n + 1] times in a row writes its
    message once, then a space, then the frames in the order of the
    cycle, each followed by a backspace.  Removing it then writes a
    backspace, the reset code, as many blanks as the visible message has
    characters plus two, and a carriage return; removing it a second
    time, or removing a spinner that was never drawn, writes nothing. *)
Theorem spinner_animation (msg out0 : text) (n : nat) :
  let st := do_calls (repeat call_write_next (S n)) (Spinner_init msg, out0) in
  snd st = out0 ++ msg ++ str " " ++ animation 0 (S n) /\
  snd (remove_spinner st) =
    snd st ++ [backspace]
           ++ (ENDC ++ repeat (ch " ") (length (sub_ansi msg) + 2))
           ++ [carriage_return] /\
  spinner_visible (fst (remove_spinner st)) = false /\
  remove_spinner (remove_spinner st) = remove_spinner st /\
  remove_spinner (Spinner_init msg, out0) = (Spinner_init msg, out0).
Proof.
  assert (Hst : do_calls (repeat call_write_next (S n)) (Spinner_init msg, out0)
                = (mk_spinner (S n) false true msg (length (sub_ansi msg)),
                   out0 ++ msg ++ str " " ++ animation 0 (S n))).
  { change (repeat call_write_next (S n))
      with (call_write_next :: repeat call_write_next n).
    unfold do_calls. cbn [fold_left do_call].
    unfold write_next at 1. cbn [Spinner_init spinner_visible].
    fold (do_calls (repeat call_write_next n)).
    rewrite write_next_iter by reflexivity.
    cbn [spinner busy message message_len]. f_equal.
    unfold animation, next_frame. cbn [seq flat_map spinner].
    change (spinner (Spinner_init msg)) with 0%nat.
    change (message (Spinner_init msg)) with msg.
    now rewrite <- !app_assoc. }
  intros st. subst st. rewrite Hst.
  unfold remove_spinner. cbn [spinner_visible message_len fst snd].
  repeat split; reflexivity.
Qed.

(** *** Dates and titles of the items *)

Lemma parse_date_not_before_min (E : Env) (v : option text) :
  parsed_dates_in_range E -> dt_ltb (parse_date E v) datetime_min = false.
Proof.
  intros Hr. unfold parse_date. destruct v as [[|c r]|]; try apply dt_ltb_irrefl.
  destruct (parsedate_to_datetime E (c :: r)) as [d|e] eqn:Hd.
  - apply in_range_not_before_min. exact (Hr _ _ Hd).
  - apply dt_ltb_irrefl.
Qed.

(** X15.  What [main] shows as the date of an item: ["Recent"] when the
    [pubDate] was missing, empty or refused by the parser, and also when
    it was parsed as [datetime.min] itself; the formatted date for every
    other parsed date. *)
Theorem recent_label_cases (E : Env) (strftime : datetime -> text)
        (v : option text) :
  date_str strftime (parse_date E v) =
  match v with
  | Some (c :: r) =>
      match parsedate_to_datetime E (c :: r) with
      | Ok d => if dt_eqb (wall d) datetime_min then str "Recent"
                else strftime (wall d)
      | Raise _ => str "Recent"
      end
  | _ => str "Recent"
  end.
Proof.
  assert (Hmin : dt_eqb datetime_min datetime_min = true)
    by now apply dt_eqb_eq.
  unfold date_str, parse_date. destruct v as [[|c r]|]; try now rewrite Hmin.
  destruct (parsedate_to_datetime E (c :: r)) as [d|e]; [|now rewrite Hmin].
  unfold replace_tzinfo_None. now destruct (dt_eqb (wall d) datetime_min).
Qed.

Lemma lstrip_nil_iff (s : text) : lstrip s = [] <-> forallb is_space s = true.
Proof.
  induction s as [|c r IH]; cbn; [tauto|].
  destruct (is_space c); cbn; [exact IH|]. split; discriminate.
Qed.

Lemma strip_nil_iff (s : text) : strip s = [] <-> forallb is_space s = true.
Proof.
  rewrite <- lstrip_nil_iff. unfold strip. split.
  - intros H. destruct (lstrip_head s) as [H0 | (c & r & H0 & Hc)];
      [exact H0|].
    rewrite H0, (rstrip_cons_nonspace c r Hc) in H. discriminate.
  - intros ->. reflexivity.
Qed.

(** X16.  The item that the loop body appends has an empty title exactly
    when the title of the element consists of whitespace only: these are
    the items that pass the test on the raw title and lose everything in
    the trimming. *)
Theorem empty_title_iff_blank (E : Env) (url : text) (item : element)
        (st : list NewsItem) (n : NewsItem) :
  item_body E url item st = (st ++ [n], Ok tt) ->
  exists raw_title,
    find_text item (str "title") = Some raw_title /\ raw_title <> [] /\
    title n = strip raw_title /\
    (title n = [] <-> forallb is_space raw_title = true).
Proof.
  intros Hrun.
  destruct (item_body_cases E url item st) as [H|[[H _]|H]].
  - rewrite H in Hrun. injection Hrun as Hst.
    exfalso. apply (f_equal (@length NewsItem)) in Hst.
    rewrite length_app in Hst. cbn in Hst. lia.
  - rewrite H in Hrun. discriminate.
  - destruct H as (rt & rl & Ht & Hne & _ & _ & H). rewrite H in Hrun.
    injection Hrun as Hst. apply app_inj_tail in Hst as [_ <-].
    exists rt. cbn [title]. repeat split; auto; apply strip_nil_iff.
Qed.

Lemma empty_title_iff_blank_witness :
  exists raw_title,
    find_text (xml_item [leaf "title" "  "; leaf "link" "https://b.example/1";
                         leaf "description" "AI"]) (str "title")
      = Some raw_title /\ raw_title <> [] /\
    ([] : text) = strip raw_title /\
    (([] : text) = [] <-> forallb is_space raw_title = true).
Proof.
  apply (empty_title_iff_blank blank_env (nth_feed 0)
           (xml_item [leaf "title" "  "; leaf "link" "https://b.example/1";
                      leaf "description" "AI"])
           []
           {| title := []; link := str "https://b.example/1";
              desc := str "AI..."; date := datetime_min;
              source := nth_feed 0 |}).
  vm_compute. reflexivity.
Defined.

Lemma filter_all {A : Type} (p : A -> bool) (l : list A) :
  (forall x, In x l -> p x = true) ->
  filter p l = l /\ filter (fun x => negb (p x)) l = [].
Proof.
  induction l as [|x l IH]; intros H; [split; reflexivity|].
  cbn [filter]. rewrite (H x (or_introl eq_refl)). cbn [negb].
  destruct IH as [-> ->]; [|split; reflexivity].
  intros y Hy. apply H. now right.
Qed.

(** A list in date order whose dates are not before [datetime.min] is
    its dated items followed by its undated ones. *)
Lemma sorted_undated_last (l : list NewsItem) :
  StronglySorted (fun a b => dt_ltb (date a) (date b) = false) l ->
  Forall (fun n => dt_ltb (date n) datetime_min = false) l ->
  l = filter (fun n => negb (undated n)) l ++ filter undated l.
Proof.
  induction 1 as [|x l Hs IH Hx]; intros Hge; [reflexivity|].
  inversion Hge as [|? ? Hxge Hlge]; subst.
  cbn [filter]. destruct (undated x) eqn:Hux; cbn [negb].
  - apply dt_eqb_eq in Hux.
    destruct (filter_all undated l) as [-> ->]; [|reflexivity].
    intros y Hy. unfold undated. apply dt_eqb_eq. apply dt_ltb_total.
    + exact (proj1 (Forall_forall _ _) Hlge y Hy).
    + rewrite <- Hux. exact (proj1 (Forall_forall _ _) Hx y Hy).
  - cbn [app]. f_equal. now apply IH.
Qed.

(** X17.  In date mode the items dated [datetime.min] (no usable
    [pubDate], or one parsed as that very instant) come last, after all
    the others, in the order in which they were collected. *)
Theorem undated_items_last (E : Env) (feeds : list text)
        (all_items : list NewsItem) :
  parsed_dates_in_range E ->
  for_each (feed_body E) feeds [] = (all_items, Ok tt) ->
  rank E false all_items =
  filter (fun n => negb (undated n)) (rank E false all_items)
  ++ filter undated all_items.
Proof.
  intros Hr Hrun.
  assert (Hge : Forall (fun n => dt_ltb (date n) datetime_min = false) all_items).
  { destruct (run_result E feeds all_items Hrun) as [_ ->].
    apply Forall_forall. intros n Hn.
    apply in_flat_map in Hn as (url & _ & Hn).
    apply In_built_items in Hn as (item & _ & Hb).
    destruct (build_item_some E url item n Hb) as (rt & rl & _ & _ & _ & _ & ->).
    cbn [date]. now apply parse_date_not_before_min. }
  unfold rank.
  pose proof (list_sort_sorted date dt_ltb dt_ltb_asym dt_ltb_negtrans
                true all_items) as Hs.
  pose proof (list_sort_perm date dt_ltb true all_items) as Hp.
  replace (filter undated all_items)
    with (filter undated (list_sort date dt_ltb true all_items))
    by exact (list_sort_stable date dt_ltb dt_ltb_negtrans true datetime_min
                all_items).
  apply sorted_undated_last; [exact Hs|].
  exact (Permutation_Forall Hp Hge).
Qed.

Lemma undated_items_last_witness :
  for_each (feed_body mixed_env) RSS_FEEDS [] =
    ([item_rust; item_go; item_linux; item_notes_rust; item_notes_python],
     Ok tt) /\
  rank mixed_env false
    [item_rust; item_go; item_linux; item_notes_rust; item_notes_python] =
  [item_linux; item_rust] ++ [item_go; item_notes_rust; item_notes_python].
Proof.
  assert (Hrun : for_each (feed_body mixed_env) RSS_FEEDS [] =
                 ([item_rust; item_go; item_linux; item_notes_rust;
                   item_notes_python], Ok tt))
    by (vm_compute; reflexivity).
  split; [exact Hrun|].
  rewrite (undated_items_last mixed_env RSS_FEEDS _
             sample_parsedate_in_range Hrun).
  vm_compute. reflexivity.
Defined.

(** X18.  A source that the loop skips (its fetch raised or returned no
    bytes, its payload made the parser raise [ParseError], or its
    document has no [channel] under the root) leaves [all_items] as it
    was and raises nothing, so a run gives what it gives with these
    sources taken off the list, whatever the other sources do.  In the
    scenario, where the first source yields three matching items and
    every other source is skipped, the result is these three items,
    newest first. *)
Theorem skipped_sources_drop_out (E : Env) (feeds : list text)
        (shuffle : bool) (limit : Z) :
  (forall url st, source_skipped E url = true ->
                  feed_body E url st = (st, Ok tt)) /\
  (forall st,
     for_each (feed_body E) feeds st =
     for_each (feed_body E)
       (filter (fun u => negb (source_skipped E u)) feeds) st) /\
  get_news_from E feeds shuffle limit =
  get_news_from E (filter (fun u => negb (source_skipped E u)) feeds)
    shuffle limit /\
  filter (fun u => negb (source_skipped scenario_env u)) RSS_FEEDS = [nth_feed 0] /\
  for_each (feed_body scenario_env) [nth_feed 0] [] =
    ([item_rust; item_go; item_linux], Ok tt) /\
  get_news scenario_env false MAX_ITEMS = Ok [item_linux; item_rust; item_go].
Proof.
  assert (Hskip : forall st,
     for_each (feed_body E) feeds st =
     for_each (feed_body E)
       (filter (fun u => negb (source_skipped E u)) feeds) st).
  { apply for_each_skip. intros url st. apply feed_body_skipped. }
  split; [intros url st; apply feed_body_skipped|].
  split; [exact Hskip|].
  split; [unfold get_news_from; now rewrite Hskip|].
  split; [vm_compute; reflexivity|].
  split; vm_compute; reflexivity.
Qed.
